(** * KeeLoq code word decoder: a shallow embedding of [pd.py]

    The decoder is a libsigrokdecode protocol decoder.  Its host hands it
    the sample rate and, through [wait], the sample numbers of the edges
    of one logic channel; the decoder answers with annotations ([put]).

    The development follows the source function by function.  The
    attributes of the Python object are the fields of [Decoder]; the edge
    source and the annotation sink are the two other components of
    [World]; methods are computations in a state-and-exception monad over
    [World].

    Durations are Python floats in the source.  They are taken here as
    exact rationals: [t = (n - prevN) / samplerate] is the quotient of two
    integers, and the window bounds are the decimal constants of
    [reset].  A duration inside a window is inside it as a float too;
    the properties that need a duration outside a window, or no
    exception from the division, are stated for sample rates up to
    10^12 Hz and sample numbers of 64 bits, where the float and the
    exact quotient fall on the same side of every bound (see
    [measured_exactly] and [outside_by_a_margin]). *)

From Stdlib Require Import ZArith QArith String Ascii List Lia Bool.
From Stdlib Require DecimalString HexadecimalN.
From stdpp Require Import gmap strings.
Import ListNotations.

Open Scope Z_scope.

(** ** Python builtins used by the decoder *)

Module Py.

(** [str(i)] for an integer. *)
Definition str (i : Z) : string :=
  DecimalString.NilZero.string_of_int (Z.to_int i).

(** One digit of [int(s, 2)]. *)
Definition bit_of_ascii (c : ascii) : option N :=
  if Ascii.eqb c "0" then Some 0%N
  else if Ascii.eqb c "1" then Some 1%N
  else None.

Fixpoint int2_acc (acc : N) (s : string) : option N :=
  match s with
  | EmptyString => Some acc
  | String c s' =>
      match bit_of_ascii c with
      | Some b => int2_acc (2 * acc + b)%N s'
      | None => None
      end
  end.

(** [int(s, 2)] on the strings the decoder builds, which hold only the
    characters 0 and 1.  [None] stands for [ValueError]: the empty
    string has no value, and neither has a string with another
    character.  (Signs, underscores, blanks and a [0b] prefix, which
    Python would also read, never occur in [BitString].) *)
Definition int2 (s : string) : option N :=
  match s with
  | EmptyString => None
  | _ => int2_acc 0%N s
  end.

(** Upper-case hexadecimal digits, most significant first. *)
Fixpoint hex_of_uint (u : Hexadecimal.uint) : string :=
  match u with
  | Hexadecimal.Nil => EmptyString
  | Hexadecimal.D0 u => String "0" (hex_of_uint u)
  | Hexadecimal.D1 u => String "1" (hex_of_uint u)
  | Hexadecimal.D2 u => String "2" (hex_of_uint u)
  | Hexadecimal.D3 u => String "3" (hex_of_uint u)
  | Hexadecimal.D4 u => String "4" (hex_of_uint u)
  | Hexadecimal.D5 u => String "5" (hex_of_uint u)
  | Hexadecimal.D6 u => String "6" (hex_of_uint u)
  | Hexadecimal.D7 u => String "7" (hex_of_uint u)
  | Hexadecimal.D8 u => String "8" (hex_of_uint u)
  | Hexadecimal.D9 u => String "9" (hex_of_uint u)
  | Hexadecimal.Da u => String "A" (hex_of_uint u)
  | Hexadecimal.Db u => String "B" (hex_of_uint u)
  | Hexadecimal.Dc u => String "C" (hex_of_uint u)
  | Hexadecimal.Dd u => String "D" (hex_of_uint u)
  | Hexadecimal.De u => String "E" (hex_of_uint u)
  | Hexadecimal.Df u => String "F" (hex_of_uint u)
  end.

(** ["{:X}".format(v)]: no padding, ["0"] for zero. *)
Definition hex (v : N) : string := hex_of_uint (N.to_hex_uint v).

Fixpoint zeros (k : nat) : string :=
  match k with
  | O => EmptyString
  | S k' => String "0" (zeros k')
  end.

(** ["{0:0{1}X}".format(v, width)]: the digits of [v], with zeros in
    front up to [width] characters; a longer number is left as it is. *)
Definition format_0X (v : N) (width : nat) : string :=
  let digits := hex v in
  String.append (zeros (width - String.length digits)) digits.

End Py.

(** ** Data *)

(** [class Ann]: the annotation classes, [range(5)]. *)
Inductive Ann : Set := TE | LOGICAL_BIT | CODE_WORD | ENCRYP_DATA | FIXED_DATA.

Definition Ann_index (a : Ann) : Z :=
  match a with
  | TE => 0 | LOGICAL_BIT => 1 | CODE_WORD => 2 | ENCRYP_DATA => 3 | FIXED_DATA => 4
  end.

(** One call [self.put(ss, es, self.out_ann, [cls, [text]])]. *)
Record Annotation : Set := mkAnnotation {
  ann_ss : Z;
  ann_es : Z;
  ann_cls : Ann;
  ann_text : string
}.

(** An edge of the channel, as the host reports it to [wait]. *)
Record Edge : Set := mkEdge {
  edge_sample : Z;
  edge_rising : bool
}.

(** The values [trig_cond] takes: [""], [[{0: "r"}]] and [[{0: "e"}]]. *)
Inductive TrigCond : Set := cond_none | cond_rising | cond_edge.

(** The attributes of a [Decoder] object.  [TE_Timing] and the preamble
    constants are assigned once in [reset] and never again; they are the
    constants below.  [samplenum] is the attribute the host sets in
    [wait]. *)
Record Decoder : Type := mkDecoder {
  samplerate : option Z;
  TEcnt : Z;
  Block_Init : Z;
  ssBlock : Z;
  Header_Completed : Z;
  n : Z;
  prevN : Z;
  Bitcnt : Z;
  trig_cond : TrigCond;
  BitString : string;
  KeyLoq : gmap string string;
  samplenum : Z
}.

Definition TE_Timing : list Q := [280e-6; 580e-6; 700e-6; 1000e-6; 3e-3; 6e-3]%Q.
Definition PREAMBLE_TE_Count_Std : Z := 23.
Definition PREAMBLE_TE_Count_Short : Z := 45.

(** [l[i]] for the two constant lists. *)
Definition item (l : list Q) (i : nat) : Q := nth i l 0%Q.

Definition PREAMBLE_TE_Timing_Short : list Q :=
  [item TE_Timing 0 * 0.5; item TE_Timing 1 * 0.5]%Q.

(** [t >= lo and t <= hi]. *)
Definition between (lo hi t : Q) : bool := Qle_bool lo t && Qle_bool t hi.

(** The state after [reset].  [samplenum] is set by the host before it is
    first read. *)
Definition reset : Decoder := {|
  samplerate := None;
  TEcnt := 0;
  Block_Init := 0;
  ssBlock := 0;
  Header_Completed := 0;
  n := 0;
  prevN := 0;
  Bitcnt := 0;
  trig_cond := cond_none;
  BitString := "";
  KeyLoq :=
    <["Encrypted" := ""]> (<["Serial-Number" := ""]> (<["S3" := ""]> (<["S0" := ""]>
    (<["S1" := ""]> (<["S2" := ""]> (<["V-Low" := ""]> (<["RPT" := ""]> ∅)))))));
  samplenum := 0
|}.

(** [metadata(SRD_CONF_SAMPLERATE, value)]. *)
Definition metadata (value : Z) (d : Decoder) : Decoder :=
  {| samplerate := Some value; TEcnt := TEcnt d; Block_Init := Block_Init d;
     ssBlock := ssBlock d; Header_Completed := Header_Completed d; n := n d;
     prevN := prevN d; Bitcnt := Bitcnt d; trig_cond := trig_cond d;
     BitString := BitString d; KeyLoq := KeyLoq d; samplenum := samplenum d |}.

(** Assignments to single attributes. *)
Definition set_TEcnt (v : Z) (d : Decoder) : Decoder :=
  {| samplerate := samplerate d; TEcnt := v; Block_Init := Block_Init d;
     ssBlock := ssBlock d; Header_Completed := Header_Completed d; n := n d;
     prevN := prevN d; Bitcnt := Bitcnt d; trig_cond := trig_cond d;
     BitString := BitString d; KeyLoq := KeyLoq d; samplenum := samplenum d |}.

Definition set_Block_Init (v : Z) (d : Decoder) : Decoder :=
  {| samplerate := samplerate d; TEcnt := TEcnt d; Block_Init := v;
     ssBlock := ssBlock d; Header_Completed := Header_Completed d; n := n d;
     prevN := prevN d; Bitcnt := Bitcnt d; trig_cond := trig_cond d;
     BitString := BitString d; KeyLoq := KeyLoq d; samplenum := samplenum d |}.

Definition set_ssBlock (v : Z) (d : Decoder) : Decoder :=
  {| samplerate := samplerate d; TEcnt := TEcnt d; Block_Init := Block_Init d;
     ssBlock := v; Header_Completed := Header_Completed d; n := n d;
     prevN := prevN d; Bitcnt := Bitcnt d; trig_cond := trig_cond d;
     BitString := BitString d; KeyLoq := KeyLoq d; samplenum := samplenum d |}.

Definition set_Header_Completed (v : Z) (d : Decoder) : Decoder :=
  {| samplerate := samplerate d; TEcnt := TEcnt d; Block_Init := Block_Init d;
     ssBlock := ssBlock d; Header_Completed := v; n := n d;
     prevN := prevN d; Bitcnt := Bitcnt d; trig_cond := trig_cond d;
     BitString := BitString d; KeyLoq := KeyLoq d; samplenum := samplenum d |}.

Definition set_n (v : Z) (d : Decoder) : Decoder :=
  {| samplerate := samplerate d; TEcnt := TEcnt d; Block_Init := Block_Init d;
     ssBlock := ssBlock d; Header_Completed := Header_Completed d; n := v;
     prevN := prevN d; Bitcnt := Bitcnt d; trig_cond := trig_cond d;
     BitString := BitString d; KeyLoq := KeyLoq d; samplenum := samplenum d |}.

Definition set_prevN (v : Z) (d : Decoder) : Decoder :=
  {| samplerate := samplerate d; TEcnt := TEcnt d; Block_Init := Block_Init d;
     ssBlock := ssBlock d; Header_Completed := Header_Completed d; n := n d;
     prevN := v; Bitcnt := Bitcnt d; trig_cond := trig_cond d;
     BitString := BitString d; KeyLoq := KeyLoq d; samplenum := samplenum d |}.

Definition set_Bitcnt (v : Z) (d : Decoder) : Decoder :=
  {| samplerate := samplerate d; TEcnt := TEcnt d; Block_Init := Block_Init d;
     ssBlock := ssBlock d; Header_Completed := Header_Completed d; n := n d;
     prevN := prevN d; Bitcnt := v; trig_cond := trig_cond d;
     BitString := BitString d; KeyLoq := KeyLoq d; samplenum := samplenum d |}.

Definition set_trig_cond (v : TrigCond) (d : Decoder) : Decoder :=
  {| samplerate := samplerate d; TEcnt := TEcnt d; Block_Init := Block_Init d;
     ssBlock := ssBlock d; Header_Completed := Header_Completed d; n := n d;
     prevN := prevN d; Bitcnt := Bitcnt d; trig_cond := v;
     BitString := BitString d; KeyLoq := KeyLoq d; samplenum := samplenum d |}.

Definition set_BitString (v : string) (d : Decoder) : Decoder :=
  {| samplerate := samplerate d; TEcnt := TEcnt d; Block_Init := Block_Init d;
     ssBlock := ssBlock d; Header_Completed := Header_Completed d; n := n d;
     prevN := prevN d; Bitcnt := Bitcnt d; trig_cond := trig_cond d;
     BitString := v; KeyLoq := KeyLoq d; samplenum := samplenum d |}.

(** [self.KeyLoq[key] = v]: the one dictionary is updated in place. *)
Definition set_KeyLoq (key v : string) (d : Decoder) : Decoder :=
  {| samplerate := samplerate d; TEcnt := TEcnt d; Block_Init := Block_Init d;
     ssBlock := ssBlock d; Header_Completed := Header_Completed d; n := n d;
     prevN := prevN d; Bitcnt := Bitcnt d; trig_cond := trig_cond d;
     BitString := BitString d; KeyLoq := <[key := v]> (KeyLoq d);
     samplenum := samplenum d |}.

Definition set_samplenum (v : Z) (d : Decoder) : Decoder :=
  {| samplerate := samplerate d; TEcnt := TEcnt d; Block_Init := Block_Init d;
     ssBlock := ssBlock d; Header_Completed := Header_Completed d; n := n d;
     prevN := prevN d; Bitcnt := Bitcnt d; trig_cond := trig_cond d;
     BitString := BitString d; KeyLoq := KeyLoq d; samplenum := v |}.

(** [self.KeyLoq[key]]; the eight keys are created in [reset] and no key
    is ever deleted. *)
Definition KeyLoq_get (key : string) (d : Decoder) : string :=
  default ""%string (KeyLoq d !! key).

(** ** The decoder in its environment *)

(** The decoder object, the edges the host has not delivered yet, and the
    annotations emitted so far, oldest first. *)
Record World : Type := mkWorld {
  self : Decoder;
  pending : list Edge;
  emitted : list Annotation
}.

(** The exceptions a method can raise. *)
Inductive Exn : Set :=
| NoSamplerate      (* Exception("Cannot decode without samplerate.") *)
| ValueError        (* int() of a string that is no number *)
| ZeroDivisionError (* division by a sample rate of 0 *)
| TypeError.        (* division by None *)

(** A method returns, raises, or stays in [wait] because the host has no
    edge left to deliver: the session ends there, with the decoder in the
    state it had when it called [wait]. *)
Inductive Outcome (A : Type) : Type :=
| Ok (a : A) (w : World)
| Raise (e : Exn) (w : World)
| Suspended (w : World).
Arguments Ok {A} a w.
Arguments Raise {A} e w.
Arguments Suspended {A} w.

Definition M (A : Type) : Type := World -> Outcome A.

Definition ret {A} (a : A) : M A := fun w => Ok a w.

Definition bind {A B} (m : M A) (k : A -> M B) : M B :=
  fun w =>
    match m w with
    | Ok a w' => k a w'
    | Raise e w' => Raise e w'
    | Suspended w' => Suspended w'
    end.

Definition raise {A} (e : Exn) : M A := fun w => Raise e w.

Declare Scope py_scope.
Delimit Scope py_scope with py.
Notation "x <~ c1 ; c2" := (bind c1 (fun x => c2))
  (at level 100, c1 at next level, right associativity) : py_scope.
Notation "c1 ;' c2" := (bind c1 (fun _ => c2))
  (at level 100, right associativity) : py_scope.

(** Reading and writing [self]. *)
Definition get : M Decoder := fun w => Ok (self w) w.

Definition assign (f : Decoder -> Decoder) : M unit :=
  fun w => Ok tt {| self := f (self w); pending := pending w; emitted := emitted w |}.

(** [self.put(ss, es, self.out_ann, [cls, [text]])]. *)
Definition put (ss es : Z) (cls : Ann) (text : string) : M unit :=
  fun w => Ok tt {| self := self w; pending := pending w;
                    emitted := emitted w ++ [mkAnnotation ss es cls text] |}.

Definition matches (c : TrigCond) (e : Edge) : bool :=
  match c with
  | cond_rising => edge_rising e
  | cond_edge => true
  | cond_none => true
  end.

(** [self.wait(cond)]: the host skips to the next edge that meets the
    condition and sets [samplenum]; when the samples are used up the
    decoder stays suspended.  (It never waits on the initial [""].) *)
Fixpoint wait_in (c : TrigCond) (es : list Edge) : option (Z * list Edge) :=
  match es with
  | [] => None
  | e :: es' => if matches c e then Some (edge_sample e, es') else wait_in c es'
  end.

Definition wait (c : TrigCond) : M unit :=
  fun w =>
    match wait_in c (pending w) with
    | Some (s, rest) =>
        Ok tt {| self := set_samplenum s (self w); pending := rest; emitted := emitted w |}
    | None => Suspended {| self := self w; pending := []; emitted := emitted w |}
    end.

Arguments bind {A B} m k w /.
Arguments ret {A} a w /.
Arguments raise {A} e w /.
Arguments get w /.
Arguments assign f w /.
Arguments put ss es cls text w /.
Arguments wait c w /.

(** ** The methods of [Decoder] *)

Local Open Scope py_scope.

(** [Start_Block]: remember where a block of information begins. *)
Definition Start_Block : M unit :=
  d <~ get;
  if Block_Init d =? 0 then
    assign (set_Block_Init 1);'
    d <~ get;
    assign (set_ssBlock (prevN d))
  else ret tt.

(** The two tests at the head of [Decode_Preable]. *)
Definition in_short_te (t : Q) : bool :=
  between (item PREAMBLE_TE_Timing_Short 0) (item PREAMBLE_TE_Timing_Short 1) t.
Definition in_std_te (t : Q) : bool :=
  between (item TE_Timing 0) (item TE_Timing 1) t.
(** [t >= TE_Timing[2] and t <= TE_Timing[3]] and the same for 4 and 5. *)
Definition in_bit0 (t : Q) : bool := between (item TE_Timing 2) (item TE_Timing 3) t.
Definition in_header (t : Q) : bool := between (item TE_Timing 4) (item TE_Timing 5) t.

(** [Decode_Preable]: preamble and header. *)
Definition Decode_Preable (t : Q) : M unit :=
  d <~ get;
  if in_short_te t || in_std_te t then
    (if in_short_te t && (TEcnt d <? PREAMBLE_TE_Count_Short) then
       put (prevN d) (samplenum d) TE (Py.str (TEcnt d));'
       Start_Block
     else if in_std_te t && (TEcnt d <? PREAMBLE_TE_Count_Std) then
       put (prevN d) (samplenum d) TE (Py.str (TEcnt d));'
       Start_Block
     else ret tt);'
    d <~ get;
    if (in_short_te t && (TEcnt d =? PREAMBLE_TE_Count_Short))
       || (in_std_te t && (TEcnt d =? PREAMBLE_TE_Count_Std)) then
      put (ssBlock d) (n d) CODE_WORD "Preamble";'
      put (prevN d) (samplenum d) TE (Py.str (TEcnt d))
    else ret tt
  else if in_header t
          && ((TEcnt d =? PREAMBLE_TE_Count_Std + 1)
              || (TEcnt d =? PREAMBLE_TE_Count_Short + 1)) then
    put (prevN d) (n d) CODE_WORD "Header";'
    assign (set_TEcnt 0);'
    assign (set_Block_Init 0);'
    assign (set_Header_Completed 1)
  else
    assign (set_TEcnt 0);'
    assign (set_Block_Init 0).

(** [Reset_DP_Cnts]. *)
Definition Reset_DP_Cnts : M unit :=
  assign (set_Block_Init 0);'
  assign (set_BitString "").

(** [Decode_LogicalBit].  [Valid_Bit] is set to 1 on the line before it is
    tested, so the inner [if Valid_Bit] is always taken. *)
Definition Decode_LogicalBit (t : Q) : M string :=
  let LogicalBit := ""%string in
  if in_std_te t || in_bit0 t then
    Start_Block;'
    d <~ get;
    (if Bitcnt d =? 65 then
       assign (set_n (samplenum d + 8))
     else
       wait (trig_cond d);'
       d <~ get;
       assign (set_n (samplenum d)));'
    let LogicalBit := (if in_std_te t then "1" else "0")%string in
    d <~ get;
    put (prevN d) (n d) LOGICAL_BIT (String.append "Bit " LogicalBit);'
    ret LogicalBit
  else
    d <~ get;
    put (prevN d) (n d) LOGICAL_BIT (String.append ">>> Invalid Bit <<< " LogicalBit);'
    Reset_DP_Cnts;'
    assign (set_Header_Completed 0);'
    assign (set_Bitcnt (-1));'
    ret "0"%string.

(** [Bin2Hex]. *)
Definition Bin2Hex : M string :=
  d <~ get;
  match Py.int2 (BitString d) with
  | None => raise ValueError
  | Some decimal_value =>
      let hex_value := String.append "0x" (Py.format_0X decimal_value 7) in
      ret hex_value
  end.

(** [self.BitString = self.Decode_LogicalBit(t) + self.BitString]: the
    call is the left operand, so it runs before [self.BitString] is
    read. *)
Definition prepend_LogicalBit (t : Q) : M unit :=
  b <~ Decode_LogicalBit t;
  d <~ get;
  assign (set_BitString (String.append b (BitString d))).

(** [Decode_DataPortion]: bits 0 to 65 of the code word. *)
Definition Decode_DataPortion (t : Q) : M unit :=
  d <~ get;
  if Bitcnt d <=? 31 then
    prepend_LogicalBit t;'
    d <~ get;
    if Bitcnt d =? 31 then
      put (ssBlock d) (n d) CODE_WORD "Encrypted Portion";'
      h <~ Bin2Hex;
      assign (set_KeyLoq "Encrypted" h);'
      d <~ get;
      put (ssBlock d) (n d) ENCRYP_DATA (KeyLoq_get "Encrypted" d);'
      Reset_DP_Cnts
    else ret tt
  else if (32 <=? Bitcnt d) && (Bitcnt d <=? 59) then
    prepend_LogicalBit t;'
    d <~ get;
    if Bitcnt d =? 59 then
      put (ssBlock d) (n d) CODE_WORD "Serial Number";'
      h <~ Bin2Hex;
      assign (set_KeyLoq "Serial-Number" h);'
      d <~ get;
      put (ssBlock d) (n d) FIXED_DATA (KeyLoq_get "Serial-Number" d);'
      Reset_DP_Cnts
    else ret tt
  else if (60 <=? Bitcnt d) && (Bitcnt d <=? 63) then
    LogicalBit <~ Decode_LogicalBit t;
    d <~ get;
    if Bitcnt d =? 60 then
      assign (set_KeyLoq "S3" LogicalBit);'
      d <~ get;
      put (prevN d) (n d) FIXED_DATA (String.append "S3 = " (KeyLoq_get "S3" d))
    else if Bitcnt d =? 61 then
      assign (set_KeyLoq "S0" LogicalBit);'
      d <~ get;
      put (prevN d) (n d) FIXED_DATA (String.append "S0 = " (KeyLoq_get "S0" d))
    else if Bitcnt d =? 62 then
      assign (set_KeyLoq "S1" LogicalBit);'
      d <~ get;
      put (prevN d) (n d) FIXED_DATA (String.append "S1 = " (KeyLoq_get "S1" d))
    else if Bitcnt d =? 63 then
      assign (set_KeyLoq "S2" LogicalBit);'
      d <~ get;
      put (ssBlock d) (n d) CODE_WORD "Button Code";'
      put (prevN d) (n d) FIXED_DATA (String.append "S2 = " (KeyLoq_get "S2" d));'
      Reset_DP_Cnts
    else ret tt
  else if Bitcnt d =? 64 then
    LogicalBit <~ Decode_LogicalBit t;
    d <~ get;
    put (ssBlock d) (n d) CODE_WORD "V-Low";'
    (if String.eqb LogicalBit "0" then assign (set_KeyLoq "V-Low" "Battery High")
     else assign (set_KeyLoq "V-Low" "Battery Low"));'
    d <~ get;
    put (prevN d) (n d) FIXED_DATA (KeyLoq_get "V-Low" d);'
    Reset_DP_Cnts
  else if Bitcnt d =? 65 then
    LogicalBit <~ Decode_LogicalBit t;
    d <~ get;
    put (ssBlock d) (n d) CODE_WORD "RPT";'
    (if String.eqb LogicalBit "0" then assign (set_KeyLoq "RPT" "No")
     else assign (set_KeyLoq "RPT" "Yes"));'
    d <~ get;
    put (prevN d) (n d) FIXED_DATA (KeyLoq_get "RPT" d);'
    Reset_DP_Cnts;'
    assign (set_Header_Completed 0);'
    assign (set_Bitcnt (-1))
  else ret tt.

(** [t = (self.n - self.prevN) / self.samplerate].  The quotient is
    kept exact here, where the code rounds it to a double; the statements
    that depend on the difference are made for the rates and sample
    numbers at which there is none (see [measured_exactly]). *)
Definition duration : M Q :=
  d <~ get;
  match samplerate d with
  | None => raise TypeError
  | Some rate =>
      if rate =? 0 then raise ZeroDivisionError
      else ret (inject_Z (n d - prevN d) / inject_Z rate)%Q
  end.

(** One turn of the [while True] loop of [decode]. *)
Definition decode_body : M unit :=
  d <~ get;
  wait (trig_cond d);'
  d <~ get;
  assign (set_n (samplenum d));'
  t <~ duration;
  d <~ get;
  (if Header_Completed d =? 0 then
     assign (set_TEcnt (TEcnt d + 1));'
     Decode_Preable t
   else
     Decode_DataPortion t;'
     d <~ get;
     assign (set_Bitcnt (Bitcnt d + 1)));'
  d <~ get;
  assign (set_prevN (samplenum d)).

(** [turns] turns of the loop.  The loop has no exit of its own: [Ok]
    means that it is still running after that many turns. *)
Fixpoint decode_loop (turns : nat) : M unit :=
  match turns with
  | O => ret tt
  | S k => decode_body;' decode_loop k
  end.

(** What [decode] does before the loop. *)
Definition decode_anchor : M unit :=
  d <~ get;
  match samplerate d with
  | None => raise NoSamplerate
  | Some _ =>
      assign (set_trig_cond cond_rising);'
      d <~ get;
      wait (trig_cond d);'
      d <~ get;
      assign (set_prevN (samplenum d));'
      assign (set_trig_cond cond_edge)
  end.

(** [decode].  Every turn of the loop takes at least one edge from the
    host, so one turn more than there are edges left runs the loop to
    the point where it stops. *)
Definition decode : M unit :=
  decode_anchor;'
  fun w => decode_loop (S (length (pending w))) w.

(** A session: a fresh decoder, the sample rate from the host if there is
    one, and the edges of the capture. *)
Definition session (rate : option Z) (edges : list Edge) : World :=
  {| self := match rate with Some r => metadata r reset | None => reset end;
     pending := edges;
     emitted := [] |}.

Local Close Scope py_scope.

(** ** Notions used to state the properties *)

(** The duration the loop computes for an edge at sample [b] after one at
    sample [a]. *)
Definition span (rate a b : Z) : Q := (inject_Z (b - a) / inject_Z rate)%Q.

(** A half-bit of a valid length, and the bit it stands for. *)
Definition valid_half (t : Q) : bool := in_std_te t || in_bit0 t.
Definition bit_of (t : Q) : string := if in_std_te t then "1" else "0".

(** No test at all: the second half of a bit is not looked at. *)
Definition any_time (_ : Q) : bool := true.

(** [follows rate prev ws es]: the edges [es] come one per window of
    [ws], each at a distance from its predecessor that the window
    accepts; [prev] is the sample the first distance is taken from. *)
Fixpoint follows (rate prev : Z) (ws : list (Q -> bool)) (es : list Edge) : bool :=
  match ws, es with
  | [], [] => true
  | win :: ws', e :: es' =>
      win (span rate prev (edge_sample e)) && follows rate (edge_sample e) ws' es'
  | _, _ => false
  end.

(** The measured half of a bit. *)
Definition half_window (b : bool) : Q -> bool := if b then in_std_te else in_bit0.

(** The windows of the data bits [bs] when every bit is followed by a
    next one: the measured half, then the edge that ends the bit. *)
Fixpoint bit_windows (bs : list bool) : list (Q -> bool) :=
  match bs with
  | [] => []
  | b :: bs' => half_window b :: any_time :: bit_windows bs'
  end.

(** A code word: the bits [bs] and the measured half of the bit [last],
    after which no edge is needed. *)
Definition code_word_windows (bs : list bool) (last : bool) : list (Q -> bool) :=
  bit_windows bs ++ [half_window last].

(** A whole transmission with the standard preamble. *)
Definition transmission_windows (bs : list bool) (last : bool) : list (Q -> bool) :=
  repeat in_std_te 23 ++ [in_header] ++ code_word_windows bs last.


(** The decoder at the head of a turn of the loop: it waits for any edge
    and has a sample rate that is not zero. *)
Record looping (rate : Z) (w : World) : Prop := {
  looping_cond : trig_cond (self w) = cond_edge;
  looping_rate : samplerate (self w) = Some rate;
  looping_nonzero : rate <> 0
}.

(** The world when [wait] has returned with edge [e] and [n] is set. *)
Definition arrive (e : Edge) (rest : list Edge) (w : World) : World :=
  {| self := set_n (edge_sample e) (set_samplenum (edge_sample e) (self w));
     pending := rest; emitted := emitted w |}.

(** The part of [decode_body] that follows the computation of [t]. *)
Definition dispatch (t : Q) : M unit :=
  (d <~ get;
   (if Header_Completed d =? 0 then
      assign (set_TEcnt (TEcnt d + 1));'
      Decode_Preable t
    else
      Decode_DataPortion t;'
      d <~ get;
      assign (set_Bitcnt (Bitcnt d + 1)));'
   d <~ get;
   assign (set_prevN (samplenum d)))%py.

(** The world when the loop is entered with first rising edge [e0]. *)
Definition anchored (rate : Z) (e0 : Edge) (rest : list Edge) : World :=
  {| self := set_trig_cond cond_edge
               (set_prevN (edge_sample e0)
                  (set_samplenum (edge_sample e0)
                     (set_trig_cond cond_rising (metadata rate reset))));
     pending := rest; emitted := [] |}.

(** What a turn of the loop leaves as it is while the decoder looks for
    preamble and header: the data side of the decoder and the edges not
    yet delivered.  The edge just handled becomes the previous one. *)
Record idle_data (w w' : World) : Prop := {
  idle_rate : samplerate (self w') = samplerate (self w);
  idle_cond : trig_cond (self w') = trig_cond (self w);
  idle_Bitcnt : Bitcnt (self w') = Bitcnt (self w);
  idle_BitString : BitString (self w') = BitString (self w);
  idle_KeyLoq : KeyLoq (self w') = KeyLoq (self w);
  idle_pending : pending w' = pending w;
  idle_prevN : prevN (self w') = samplenum (self w)
}.

(** What a turn of the loop leaves as it is while the decoder reads
    data bits. *)
Record busy_data (w w' : World) : Prop := {
  busy_rate : samplerate (self w') = samplerate (self w);
  busy_cond : trig_cond (self w') = trig_cond (self w);
  busy_TEcnt : TEcnt (self w') = TEcnt (self w);
  busy_prevN : prevN (self w') = samplenum (self w')
}.

(** What [Start_Block] does to the decoder. *)
Definition start_block (d : Decoder) : Decoder :=
  if Block_Init d =? 0 then set_ssBlock (prevN d) (set_Block_Init 1 d) else d.

(** What the invalid branch of [Decode_LogicalBit] does to the world. *)
Definition invalid_bit (w : World) : World :=
  {| self := set_Bitcnt (-1) (set_Header_Completed 0
               (set_BitString "" (set_Block_Init 0 (self w))));
     pending := pending w;
     emitted := emitted w ++
       [mkAnnotation (prevN (self w)) (n (self w)) LOGICAL_BIT ">>> Invalid Bit <<< "] |}.

(** Strings of the characters 0 and 1. *)
Fixpoint is_binary (s : string) : bool :=
  match s with
  | EmptyString => true
  | String c s' => (Ascii.eqb c "0" || Ascii.eqb c "1") && is_binary s'
  end.

(** The loop invariant that keeps the decoder free of exceptions. *)
Record sound (rate : Z) (w : World) : Prop := {
  sound_looping : looping rate w;
  sound_binary : is_binary (BitString (self w)) = true;
  sound_Bitcnt : 0 <= Bitcnt (self w) <= 65
}.

(** Reading upper-case hexadecimal digits back, to say which number a
    printed field denotes. *)
Definition hex_digit (c : ascii) : option N :=
  let code := N_of_ascii c in
  if (48 <=? code)%N && (code <=? 57)%N then Some (code - 48)%N
  else if (65 <=? code)%N && (code <=? 70)%N then Some (code - 55)%N
  else None.

Fixpoint hex_value_acc (acc : N) (s : string) : option N :=
  match s with
  | EmptyString => Some acc
  | String c s' =>
      match hex_digit c with
      | Some v => hex_value_acc (16 * acc + v)%N s'
      | None => None
      end
  end.

Definition hex_value (s : string) : option N := hex_value_acc 0%N s.

(** The text [Bin2Hex] makes of an accumulation string. *)
Definition hex_field (acc : string) : string :=
  match Py.int2 acc with
  | Some v => String.append "0x" (Py.format_0X v 7)
  | None => ""
  end.

(** The code word assembler as a function: what the bit [b] decoded at
    position [k] does to the accumulation string and to the code word. *)
Definition assemble (k : Z) (b : string) (acc : string) (kw : gmap string string)
  : string * gmap string string :=
  if k <? 31 then (String.append b acc, kw)
  else if k =? 31 then (""%string, <["Encrypted" := hex_field (String.append b acc)]> kw)
  else if k <? 59 then (String.append b acc, kw)
  else if k =? 59 then (""%string, <["Serial-Number" := hex_field (String.append b acc)]> kw)
  else if k =? 60 then (acc, <["S3" := b]> kw)
  else if k =? 61 then (acc, <["S0" := b]> kw)
  else if k =? 62 then (acc, <["S1" := b]> kw)
  else if k =? 63 then (""%string, <["S2" := b]> kw)
  else if k =? 64 then
    (""%string, <["V-Low" := if String.eqb b "0" then "Battery High" else "Battery Low"]> kw)
  else (""%string, <["RPT" := if String.eqb b "0" then "No" else "Yes"]> kw).

(** The bit string of a list of bits, one character per bit. *)
Definition bit_char (b : bool) : string := if b then "1" else "0".

(** [assemble] over the bits [bs], the first of them at position [k]. *)
Fixpoint assemble_all (k : Z) (bs : list bool) (acc : string) (kw : gmap string string)
  : string * gmap string string :=
  match bs with
  | [] => (acc, kw)
  | b :: bs' =>
      let '(acc', kw') := assemble k (bit_char b) acc kw in
      assemble_all (k + 1) bs' acc' kw'
  end.

(** The states after each of the next [turns] turns of the loop, as long
    as the turns return. *)
Fixpoint decode_trace (turns : nat) (w : World) : list Decoder :=
  match turns with
  | O => []
  | S k =>
      match decode_body w with
      | Ok _ w' => self w' :: decode_trace k w'
      | _ => []
      end
  end.

Arguments in_short_te : simpl never.
Arguments in_std_te : simpl never.
Arguments in_bit0 : simpl never.
Arguments in_header : simpl never.
Arguments Py.str : simpl never.
Arguments KeyLoq_get : simpl never.
Arguments Bin2Hex : simpl never.
Arguments Start_Block w /.
Arguments Reset_DP_Cnts w /.

(** ** Captures used as examples *)

(** Edges at the given distances in samples, alternating in direction. *)
Fixpoint edges_from (start : Z) (rising : bool) (lengths : list Z) : list Edge :=
  match lengths with
  | [] => []
  | dt :: lengths' =>
      mkEdge (start + dt) rising :: edges_from (start + dt) (negb rising) lengths'
  end.

(** The two halves of a bit: one TE high and two low for 1, two high and
    one low for 0. *)
Definition pwm (te : Z) (b : bool) : list Z := if b then [te; 2 * te] else [2 * te; te].

Fixpoint alternating (k : nat) (b : bool) : list bool :=
  match k with
  | O => []
  | S k' => b :: alternating k' (negb b)
  end.

(** The 66 bits of the end-to-end scenario. *)
Definition scenario_bits : list bool :=
  alternating 32 true ++ repeat false 28 ++ [true; false; true; false] ++ [true; false].

(** Preamble of 23 TE, header of 10 TE, then the bits; the low half of
    the last bit has no edge after it. *)
Definition transmission (te : Z) (bits : list bool) : list Z :=
  repeat te 23 ++ [10 * te] ++ removelast (concat (map (pwm te) bits)).

(** A capture at 1 MHz with TE = 400 samples: first rising edge at sample
    100, then the scenario. *)
Definition scenario_edges : list Edge :=
  mkEdge 100 true :: edges_from 100 false (transmission 400 scenario_bits).

(** The world after the given number of turns of the loop on a capture
    at 1 MHz (the fresh session if the loop does not get that far). *)
Definition after_turns (turns : nat) (edges : list Edge) : World :=
  match edges with
  | e0 :: es =>
      match decode_loop turns (anchored 1000000 e0 es) with
      | Ok _ w => w
      | Raise _ w => w
      | Suspended w => w
      end
  | [] => session (Some 1000000) []
  end.

(** A preamble of 23 TE followed by one more TE pulse and no header. *)
Definition long_preamble_edges : list Edge :=
  mkEdge 100 true :: edges_from 100 false (repeat 400 24).

(** A short preamble: 45 pulses of 200 samples, then the header gap. *)
Definition short_preamble_edges : list Edge :=
  mkEdge 100 true :: edges_from 100 false (repeat 200 45 ++ [4000]).

(** A transmission that breaks off: preamble, header, ten bits, then a
    high half of 620 samples, which is neither a 1 nor a 0; after a pause
    of 20000 samples the scenario is sent. *)
Definition aborted_lengths : list Z :=
  repeat 400 23 ++ [4000] ++ concat (map (pwm 400) (firstn 10 scenario_bits))
  ++ [620] ++ [20000].

Definition aborted_then_scenario_edges : list Edge :=
  mkEdge 100 true ::
  edges_from 100 false (aborted_lengths ++ transmission 400 scenario_bits).

(** The scenario with the high half of the bit at position [k] stretched
    to 620 samples. *)
Definition spoiled_lengths (k : nat) : list Z :=
  repeat 400 23 ++ [4000] ++ concat (map (pwm 400) (firstn k scenario_bits)) ++ [620].

Definition spoiled_edges (k : nat) : list Edge :=
  mkEdge 100 true :: edges_from 100 false (spoiled_lengths k).

(** ** Notions for the invariants and the value of a field *)

(** The number that bits stand for when the first one is the least
    significant. *)
Fixpoint bits_value (bs : list bool) : N :=
  match bs with
  | [] => 0
  | b :: bs' => (if b then 1 else 0) + 2 * bits_value bs'
  end%N.

(** The accumulation string of the bits [bs] received in this order,
    in front of what was accumulated before. *)
Fixpoint accumulate (bs : list bool) (acc : string) : string :=
  match bs with
  | [] => acc
  | b :: bs' => accumulate bs' (String.append (bit_char b) acc)
  end.

(** What holds of the decoder at the head of every turn of the loop: the
    bit counter is in range and is 0 outside a data portion, the pulse
    counter is not negative and is 0 inside one, the header flag is 0
    or 1, the accumulation string holds only 0 and 1, and the code word
    has the keys that [reset] gave it. *)
Record steady (w : World) : Prop := {
  steady_Bitcnt : 0 <= Bitcnt (self w) <= 65;
  steady_Header : Header_Completed (self w) = 0 \/ Header_Completed (self w) = 1;
  steady_TEcnt : 0 <= TEcnt (self w);
  steady_idle : Header_Completed (self w) = 0 -> Bitcnt (self w) = 0;
  steady_busy : Header_Completed (self w) = 1 -> TEcnt (self w) = 0;
  steady_binary : is_binary (BitString (self w)) = true;
  steady_keys : dom (KeyLoq (self w)) = dom (KeyLoq reset)
}.

(** Edges that are all falling. *)
Definition all_falling (es : list Edge) : bool :=
  forallb (fun e => negb (edge_rising e)) es.

(** The block of a preamble that began at sample [s0]: either no pulse
    has been counted yet and [s0] is the previous edge, or the start has
    been recorded in [ssBlock]. *)
Definition block_from (s0 : Z) (w : World) : Prop :=
  (Block_Init (self w) = 0 /\ prevN (self w) = s0)
  \/ (Block_Init (self w) = 1 /\ ssBlock (self w) = s0).

(** ** The range in which the exact duration is the one the code computes

    [duration] and [span] are the exact quotient of the distance in
    samples by the sample rate, and the bounds of [TE_Timing] are exact
    decimal fractions.  The code computes the double nearest to the
    quotient and compares it with the doubles nearest to the bounds (the
    halving of the short window is exact in binary).  Rounding is
    monotone, so a quotient inside a window is found inside by the code
    as well, at any rate.  A quotient outside a window is found outside
    as long as it misses the bound by more than the two roundings can
    make up, which is 2^-52 of the bound; when the distance and the rate
    are integers and the rate is at most 10^12, it misses every bound by
    more than 2^-45 of it (lemma [outside_by_a_margin]).  The division
    itself fails in the code when the quotient is beyond the doubles;
    with sample numbers of 64 bits and a rate of at least 1 it is below
    2^64.  The statements that say a duration is outside a window, or
    that nothing is raised, are made in this range. *)

(** Sample numbers as the host counts them, in 64 bits. *)
Definition in_sample_range (s : Z) : bool := (0 <=? s) && (s <? 2 ^ 64).

(** Sample rates from 1 Hz to 1 THz. *)
Definition in_rate_range (rate : Z) : bool := (0 <? rate) && (rate <=? 10 ^ 12).

(** An edge at sample [s] after one at sample [prev], at a rate for which
    the tests of the code on the double are the tests on the exact
    quotient. *)
Definition measured_exactly (rate prev s : Z) : bool :=
  in_rate_range rate && in_sample_range prev && in_sample_range s.

(** A capture whose sample numbers are all in range. *)
Definition sample_numbers (es : list Edge) : bool :=
  forallb (fun e => in_sample_range (edge_sample e)) es.

(** The bounds the durations are compared with: those of the short
    preamble window and those of [TE_Timing]. *)
Definition window_bounds : list Q := PREAMBLE_TE_Timing_Short ++ TE_Timing.

(** * Properties *)

(** ** The timing windows *)

Lemma between_spec lo hi t :
  between lo hi t = true <-> (lo <= t /\ t <= hi)%Q.
Proof.
  unfold between. rewrite andb_true_iff, !Qle_bool_iff. tauto.
Qed.

(** The bounds as fractions of a second. *)
Lemma in_short_te_eq t : in_short_te t = between (1400 # 10000000) (2900 # 10000000) t.
Proof. reflexivity. Qed.

Lemma in_std_te_eq t : in_std_te t = between (280 # 1000000) (580 # 1000000) t.
Proof. reflexivity. Qed.

Lemma in_bit0_eq t : in_bit0 t = between (700 # 1000000) (1000 # 1000000) t.
Proof. reflexivity. Qed.

Lemma in_header_eq t : in_header t = between (3 # 1000) (6 # 1000) t.
Proof. reflexivity. Qed.

(** Comparisons of a fraction [a # b] with the bounds are comparisons of
    integers. *)
Ltac q_windows :=
  rewrite ?in_short_te_eq, ?in_std_te_eq, ?in_bit0_eq, ?in_header_eq;
  unfold between, Qle_bool; cbn [Qnum Qden];
  repeat match goal with
  | |- context [Z.leb ?a ?b] => destruct (Z.leb_spec a b)
  end; cbn [andb orb negb]; try reflexivity; try lia.

Lemma short_bit0_disjoint t : in_short_te t && in_bit0 t = false.
Proof. destruct t as [a b]. q_windows. Qed.

Lemma short_header_disjoint t : in_short_te t && in_header t = false.
Proof. destruct t as [a b]. q_windows. Qed.

Lemma std_bit0_disjoint t : in_std_te t && in_bit0 t = false.
Proof. destruct t as [a b]. q_windows. Qed.

Lemma std_header_disjoint t : in_std_te t && in_header t = false.
Proof. destruct t as [a b]. q_windows. Qed.

Lemma bit0_header_disjoint t : in_bit0 t && in_header t = false.
Proof. destruct t as [a b]. q_windows. Qed.

Lemma header_not_te t :
  in_header t = true -> in_short_te t = false /\ in_std_te t = false.
Proof.
  intros H. pose proof (short_header_disjoint t) as H1.
  pose proof (std_header_disjoint t) as H2. rewrite H in H1, H2.
  rewrite andb_true_r in H1, H2. auto.
Qed.

Lemma bit0_not_std t : in_bit0 t = true -> in_std_te t = false.
Proof.
  intros H. pose proof (std_bit0_disjoint t) as H1. rewrite H in H1.
  now rewrite andb_true_r in H1.
Qed.

(** C5, as the code has it: the windows are disjoint in pairs, but for
    two overlaps.  The window of a logical 1 and that of a standard
    preamble pulse are one and the same test, and the short preamble
    window meets it on 280 to 290 microseconds. *)
Theorem windows_overlap_only_on_te (t : Q) :
  in_short_te t && in_std_te t = between 280e-6 290e-6 t
  /\ in_short_te t && in_bit0 t = false
  /\ in_short_te t && in_header t = false
  /\ in_std_te t && in_bit0 t = false
  /\ in_std_te t && in_header t = false
  /\ in_bit0 t && in_header t = false
  /\ valid_half t = in_std_te t || in_bit0 t
  /\ bit_of t = (if in_std_te t then "1" else "0")%string.
Proof.
  repeat split;
    auto using short_bit0_disjoint, short_header_disjoint, std_bit0_disjoint,
               std_header_disjoint, bit0_header_disjoint.
  destruct t as [a b].
  change (between 280e-6 290e-6) with (between (280 # 1000000) (290 # 1000000)).
  q_windows.
Qed.

(** C5 as stated fails: 285 microseconds lies in the short preamble
    window and in the standard TE window. *)
Lemma windows_short_std_overlap :
  in_short_te 285e-6 = true /\ in_std_te 285e-6 = true.
Proof. split; reflexivity. Qed.

(** ** [int(s, 2)] and the hexadecimal format *)

Lemma int2_acc_binary s : forall acc,
  is_binary s = true -> exists v, Py.int2_acc acc s = Some v.
Proof.
  induction s as [|c s IH]; intros acc H; cbn in *.
  - eauto.
  - apply andb_true_iff in H as [Hc Hs]. unfold Py.bit_of_ascii.
    destruct (Ascii.eqb c "0"); [apply IH, Hs|].
    cbn in Hc. rewrite Hc. apply IH, Hs.
Qed.

Lemma int2_binary s :
  is_binary s = true -> s <> EmptyString -> exists v, Py.int2 s = Some v.
Proof.
  destruct s as [|c s]; [congruence|]. intros H _.
  unfold Py.int2. apply int2_acc_binary, H.
Qed.

Lemma hex_value_acc_pos u : forall p,
  hex_value_acc (Npos p) (Py.hex_of_uint u) = Some (Npos (Pos.of_hex_uint_acc u p)).
Proof.
  induction u; intros p; cbn [Py.hex_of_uint hex_value_acc Pos.of_hex_uint_acc];
    try reflexivity;
    (etransitivity; [|apply IHu]); reflexivity.
Qed.

Lemma hex_value_of_uint u :
  hex_value (Py.hex_of_uint u) = Some (Pos.of_hex_uint u).
Proof.
  unfold hex_value.
  induction u; cbn [Py.hex_of_uint hex_value_acc Pos.of_hex_uint];
    try reflexivity; try assumption;
    (etransitivity; [|apply hex_value_acc_pos]); reflexivity.
Qed.

Lemma hex_value_hex v : hex_value (Py.hex v) = Some v.
Proof.
  unfold Py.hex. rewrite hex_value_of_uint.
  f_equal. apply (HexadecimalN.Unsigned.of_to v).
Qed.

Lemma hex_value_zeros k s : hex_value (String.append (Py.zeros k) s) = hex_value s.
Proof. induction k; [reflexivity|]. exact IHk. Qed.

Lemma hex_digit_bound c x : hex_digit c = Some x -> (x < 16)%N.
Proof.
  unfold hex_digit. intros Hx.
  destruct (N.leb_spec 48 (N_of_ascii c)), (N.leb_spec (N_of_ascii c) 57),
    (N.leb_spec 65 (N_of_ascii c)), (N.leb_spec (N_of_ascii c) 70);
    cbn in Hx; try discriminate; injection Hx as <-; lia.
Qed.

Lemma hex_value_acc_bound s : forall acc v,
  hex_value_acc acc s = Some v -> (v < (acc + 1) * 16 ^ N.of_nat (String.length s))%N.
Proof.
  induction s as [|c s IH]; intros acc v H.
  - cbn in H. injection H as <-. cbn. lia.
  - cbn [hex_value_acc] in H. destruct (hex_digit c) as [x|] eqn:Hx; [|discriminate].
    apply IH in H. apply hex_digit_bound in Hx.
    cbn [String.length]. rewrite Nat2N.inj_succ, N.pow_succ_r'. nia.
Qed.

Lemma length_append s1 s2 :
  String.length (String.append s1 s2) = (String.length s1 + String.length s2)%nat.
Proof.
  induction s1 as [|c s1 IH]; [reflexivity|].
  change (String.append (String c s1) s2) with (String c (String.append s1 s2)).
  cbn [String.length Nat.add]. now f_equal.
Qed.

Lemma length_zeros k : String.length (Py.zeros k) = k.
Proof. induction k; cbn [Py.zeros String.length]; [reflexivity|]. now f_equal. Qed.

Lemma format_0X_value v k : hex_value (Py.format_0X v k) = Some v.
Proof. unfold Py.format_0X. rewrite hex_value_zeros. apply hex_value_hex. Qed.

Lemma format_0X_length v k :
  String.length (Py.format_0X v k) = Nat.max k (String.length (Py.hex v)).
Proof. unfold Py.format_0X. rewrite length_append, length_zeros. lia. Qed.

Lemma format_0X_long v k :
  (16 ^ N.of_nat k <= v)%N ->
  Py.format_0X v k = Py.hex v /\ (k < String.length (Py.hex v))%nat.
Proof.
  intros Hv.
  assert (Hlen : (k < String.length (Py.hex v))%nat).
  { destruct (le_lt_dec (String.length (Py.hex v)) k) as [Hle|]; [|assumption].
    exfalso. pose proof (hex_value_acc_bound (Py.hex v) 0 v (hex_value_hex v)) as Hb.
    assert (16 ^ N.of_nat (String.length (Py.hex v)) <= 16 ^ N.of_nat k)%N
      by (apply N.pow_le_mono_r; lia).
    lia. }
  split; [|assumption].
  unfold Py.format_0X. replace (k - String.length (Py.hex v))%nat with 0%nat by lia.
  reflexivity.
Qed.

Lemma Bin2Hex_value w v :
  Py.int2 (BitString (self w)) = Some v ->
  Bin2Hex w = Ok (String.append "0x" (Py.format_0X v 7)) w.
Proof. intros H. unfold Bin2Hex, bind, get. rewrite H. reflexivity. Qed.

Lemma Bin2Hex_hex_field w :
  is_binary (BitString (self w)) = true -> BitString (self w) <> EmptyString ->
  Bin2Hex w = Ok (hex_field (BitString (self w))) w.
Proof.
  intros Hb Hne. destruct (int2_binary _ Hb Hne) as [v Hv].
  unfold hex_field. rewrite Hv. apply Bin2Hex_value, Hv.
Qed.

(** C6: [Bin2Hex] reads the accumulated bits as an unsigned number and
    prints it in hexadecimal with zeros in front up to 7 digits; the
    digits denote the same number, so nothing is cut off.  The number 0
    gives "0x0000000", the number 1 gives "0x0000001", and a number of
    more than 7 digits is printed with all its digits and no padding. *)
Theorem Bin2Hex_pads_to_7_digits (w : World) :
  is_binary (BitString (self w)) = true ->
  BitString (self w) <> EmptyString ->
  exists (v : N) (h : string),
    Py.int2 (BitString (self w)) = Some v
    /\ Bin2Hex w = Ok (String.append "0x" h) w
    /\ hex_value h = Some v
    /\ String.length h = Nat.max 7 (String.length (Py.hex v))
    /\ (v = 0%N -> h = "0000000"%string)
    /\ (v = 1%N -> h = "0000001"%string)
    /\ ((16 ^ 7 <= v)%N -> h = Py.hex v /\ (7 < String.length h)%nat).
Proof.
  intros Hb Hne. destruct (int2_binary _ Hb Hne) as [v Hv].
  exists v, (Py.format_0X v 7). split; [exact Hv|].
  split; [apply Bin2Hex_value, Hv|].
  split; [apply format_0X_value|].
  split; [apply format_0X_length|].
  split; [intros ->; reflexivity|].
  split; [intros ->; reflexivity|].
  intros Hlong. destruct (format_0X_long v 7 Hlong) as [Heq Hlen].
  rewrite Heq. auto.
Qed.

(** The three cases of C6 on accumulated fields: 32 zero bits, the value
    1 in 32 bits, and the 32 bits of 0x55555555, which take 8 digits. *)
Lemma Bin2Hex_pads_to_7_digits_witness :
  let w s := {| self := set_BitString s reset; pending := []; emitted := [] |} in
  Bin2Hex (w "00000000000000000000000000000000"%string) =
    Ok "0x0000000"%string (w "00000000000000000000000000000000"%string)
  /\ Bin2Hex (w "00000000000000000000000000000001"%string) =
    Ok "0x0000001"%string (w "00000000000000000000000000000001"%string)
  /\ Bin2Hex (w "01010101010101010101010101010101"%string) =
    Ok "0x55555555"%string (w "01010101010101010101010101010101"%string)
  /\ exists v h,
       Py.int2 "01010101010101010101010101010101" = Some v
       /\ Bin2Hex (w "01010101010101010101010101010101"%string) =
            Ok (String.append "0x" h) (w "01010101010101010101010101010101"%string)
       /\ hex_value h = Some v
       /\ String.length h = Nat.max 7 (String.length (Py.hex v))
       /\ (v = 0%N -> h = "0000000"%string)
       /\ (v = 1%N -> h = "0000001"%string)
       /\ ((16 ^ 7 <= v)%N -> h = Py.hex v /\ (7 < String.length h)%nat).
Proof.
  intros w. split; [reflexivity|]. split; [reflexivity|]. split; [reflexivity|].
  apply (Bin2Hex_pads_to_7_digits (w "01010101010101010101010101010101"%string));
    [reflexivity | discriminate].
Defined.

(** ** One turn of the loop *)

(** Symbolic runs: the world is opened into its fields, the code is
    reduced, and each test the reduction stops at is decided from the
    hypotheses or split. *)
Ltac open_world w :=
  let sr := fresh "sr" in let te := fresh "te" in let bi := fresh "bi" in
  let ssb := fresh "ssb" in let hc := fresh "hc" in let nn := fresh "nn" in
  let pn := fresh "pn" in let bc := fresh "bc" in let tc := fresh "tc" in
  let bs := fresh "bs" in let kl := fresh "kl" in let sn := fresh "sn" in
  let pend := fresh "pend" in let out := fresh "out" in
  destruct w as [[sr te bi ssb hc nn pn bc tc bs kl sn] pend out]; cbn in *; subst.

Ltac settle_test b :=
  lazymatch b with
  | (?x && _)%bool => settle_test x
  | (?x || _)%bool => settle_test x
  | negb ?x => settle_test x
  | (?x =? ?y) => destruct (Z.eqb_spec x y); try (exfalso; lia)
  | (?x <=? ?y) => destruct (Z.leb_spec x y); try (exfalso; lia)
  | (?x <? ?y) => destruct (Z.ltb_spec x y); try (exfalso; lia)
  | _ => destruct b eqn:?
  end.

Ltac use_tests :=
  repeat match goal with
  | H : ?b = true |- context [?b] => rewrite H
  | H : ?b = false |- context [?b] => rewrite H
  end.

Ltac run :=
  repeat first
    [ progress cbn
    | progress use_tests
    | match goal with
      | |- context [if ?b then _ else _] => settle_test b
      end ].

Lemma decode_body_edge rate w e rest :
  looping rate w -> pending w = e :: rest ->
  decode_body w = dispatch (span rate (prevN (self w)) (edge_sample e)) (arrive e rest w).
Proof.
  intros [Hc Hr Hz] Hp.
  unfold decode_body, duration, dispatch. cbn. rewrite Hc, Hp. cbn.
  rewrite Hr. apply Z.eqb_neq in Hz. rewrite Hz. reflexivity.
Qed.

Lemma decode_body_dry rate w :
  looping rate w -> pending w = [] -> decode_body w = Suspended w.
Proof.
  intros [Hc Hr Hz] Hp.
  unfold decode_body. cbn. rewrite Hc, Hp.
  destruct w; cbn in *; subst; reflexivity.
Qed.

(** *** Preamble and header *)

Lemma preamble_te_turn t w :
  Header_Completed (self w) = 0 ->
  in_short_te t || in_std_te t = true ->
  exists w', dispatch t w = Ok tt w'
    /\ TEcnt (self w') = TEcnt (self w) + 1
    /\ Header_Completed (self w') = 0
    /\ idle_data w w'.
Proof.
  intros Hh Ht. open_world w. unfold dispatch, Decode_Preable.
  run; (eexists; split; [reflexivity|]; cbn; repeat split; reflexivity).
Qed.

Lemma preamble_header_turn t w :
  Header_Completed (self w) = 0 ->
  in_header t = true ->
  TEcnt (self w) = PREAMBLE_TE_Count_Std \/ TEcnt (self w) = PREAMBLE_TE_Count_Short ->
  exists w', dispatch t w = Ok tt w'
    /\ TEcnt (self w') = 0
    /\ Block_Init (self w') = 0
    /\ Header_Completed (self w') = 1
    /\ idle_data w w'.
Proof.
  intros Hh Ht Hte. destruct (header_not_te t Ht) as [H1 H2].
  open_world w.
  unfold dispatch, Decode_Preable, PREAMBLE_TE_Count_Std, PREAMBLE_TE_Count_Short in *.
  run; (eexists; split; [reflexivity|]; cbn; repeat split; reflexivity).
Qed.

Lemma preamble_reset_turn t w :
  Header_Completed (self w) = 0 ->
  in_short_te t = false -> in_std_te t = false ->
  in_header t = false
  \/ (TEcnt (self w) <> PREAMBLE_TE_Count_Std /\ TEcnt (self w) <> PREAMBLE_TE_Count_Short) ->
  exists w', dispatch t w = Ok tt w'
    /\ TEcnt (self w') = 0
    /\ Block_Init (self w') = 0
    /\ Header_Completed (self w') = 0
    /\ idle_data w w'.
Proof.
  intros Hh H1 H2 Hte.
  open_world w.
  unfold dispatch, Decode_Preable, PREAMBLE_TE_Count_Std, PREAMBLE_TE_Count_Short in *.
  destruct Hte as [H3|[H3 H4]];
    run; (eexists; split; [reflexivity|]; cbn; repeat split; reflexivity).
Qed.

(** Whatever the duration, a turn in this phase returns. *)
Lemma preamble_turn_returns t w :
  Header_Completed (self w) = 0 ->
  exists w', dispatch t w = Ok tt w' /\ idle_data w w'.
Proof.
  intros Hh.
  destruct (in_short_te t || in_std_te t) eqn:Hte.
  - destruct (preamble_te_turn t w Hh Hte) as (w' & ? & ? & ? & ?). eauto.
  - apply orb_false_iff in Hte as [H1 H2].
    destruct (in_header t) eqn:H3.
    + destruct (Z.eq_dec (TEcnt (self w)) PREAMBLE_TE_Count_Std) as [E|N1].
      { destruct (preamble_header_turn t w Hh H3 (or_introl E)) as (w' & ? & ? & ? & ? & ?).
        eauto. }
      destruct (Z.eq_dec (TEcnt (self w)) PREAMBLE_TE_Count_Short) as [E|N2].
      { destruct (preamble_header_turn t w Hh H3 (or_intror E)) as (w' & ? & ? & ? & ? & ?).
        eauto. }
      destruct (preamble_reset_turn t w Hh H1 H2 (or_intror (conj N1 N2)))
        as (w' & ? & ? & ? & ? & ?). eauto.
    + destruct (preamble_reset_turn t w Hh H1 H2 (or_introl H3))
        as (w' & ? & ? & ? & ? & ?). eauto.
Qed.

(** *** Data bits *)

Lemma is_binary_bit_of t s : is_binary (String.append (bit_of t) s) = is_binary s.
Proof. unfold bit_of. destruct (in_std_te t); reflexivity. Qed.

Lemma bit_of_nonempty t s : String.append (bit_of t) s <> EmptyString.
Proof. unfold bit_of. destruct (in_std_te t); discriminate. Qed.

Lemma assemble_binary k t acc kw :
  is_binary acc = true -> is_binary (fst (assemble k (bit_of t) acc kw)) = true.
Proof.
  intros H. unfold assemble.
  repeat match goal with
  | |- context [if ?b then _ else _] =>
      lazymatch b with
      | String.eqb _ _ => fail
      | _ => destruct b
      end
  end; cbn [fst]; rewrite ?is_binary_bit_of; auto.
Qed.

Lemma KeyLoq_get_eq d key v m : KeyLoq d = <[key := v]> m -> KeyLoq_get key d = v.
Proof. intros H. unfold KeyLoq_get. rewrite H, lookup_insert_eq. reflexivity. Qed.

Ltac run_data :=
  repeat first
    [ progress cbn
    | progress use_tests
    | match goal with
      | |- context [KeyLoq_get ?k ?d] => rewrite (KeyLoq_get_eq d k _ _ eq_refl)
      | |- context [Bin2Hex ?w] =>
          rewrite (Bin2Hex_hex_field w)
            by (cbn; first [ rewrite is_binary_bit_of; assumption | apply bit_of_nonempty ])
      | |- context [if ?b then _ else _] => settle_test b
      end ].

Ltac reached :=
  eexists; split; [reflexivity|]; cbn; repeat split; reflexivity.

(** A half-bit of no valid length, at any position of the data portion.
    The text "0" that the invalid branch returns goes where the bit of
    that position would have gone. *)
Lemma data_invalid_turn t w :
  Header_Completed (self w) <> 0 ->
  valid_half t = false ->
  0 <= Bitcnt (self w) <= 65 ->
  exists w', dispatch t w = Ok tt w'
    /\ Bitcnt (self w') = 0
    /\ Header_Completed (self w') = 0
    /\ Block_Init (self w') = 0
    /\ BitString (self w') = (if Bitcnt (self w) <=? 59 then "0"%string else ""%string)
    /\ KeyLoq (self w') =
         (if Bitcnt (self w) =? 64 then <["V-Low" := "Battery High"%string]> (KeyLoq (self w))
          else if Bitcnt (self w) =? 65 then <["RPT" := "No"%string]> (KeyLoq (self w))
          else KeyLoq (self w))
    /\ emitted w' =
         emitted w ++
         mkAnnotation (prevN (self w)) (n (self w)) LOGICAL_BIT ">>> Invalid Bit <<< " ::
         (if Bitcnt (self w) =? 64 then
            [mkAnnotation (ssBlock (self w)) (n (self w)) CODE_WORD "V-Low";
             mkAnnotation (prevN (self w)) (n (self w)) FIXED_DATA "Battery High"]
          else if Bitcnt (self w) =? 65 then
            [mkAnnotation (ssBlock (self w)) (n (self w)) CODE_WORD "RPT";
             mkAnnotation (prevN (self w)) (n (self w)) FIXED_DATA "No"]
          else [])
    /\ pending w' = pending w
    /\ busy_data w w'.
Proof.
  intros Hh Hv Hk. apply orb_false_iff in Hv as [H1 H2].
  open_world w. unfold dispatch, Decode_DataPortion, prepend_LogicalBit, Decode_LogicalBit.
  run_data; try reached.
  all: eexists; split; [reflexivity|]; cbn; rewrite <- ?app_assoc; repeat split; reflexivity.
Qed.

(** A valid half-bit at a position before the last, with the edge that
    ends the bit at hand. *)
Lemma data_bit_turn t w e2 rest :
  Header_Completed (self w) <> 0 ->
  valid_half t = true ->
  0 <= Bitcnt (self w) <= 64 ->
  trig_cond (self w) = cond_edge ->
  pending w = e2 :: rest ->
  is_binary (BitString (self w)) = true ->
  exists w', dispatch t w = Ok tt w'
    /\ Bitcnt (self w') = Bitcnt (self w) + 1
    /\ Header_Completed (self w') = Header_Completed (self w)
    /\ (BitString (self w'), KeyLoq (self w')) =
         assemble (Bitcnt (self w)) (bit_of t) (BitString (self w)) (KeyLoq (self w))
    /\ pending w' = rest
    /\ samplenum (self w') = edge_sample e2
    /\ busy_data w w'.
Proof.
  intros Hh Hv Hk Hc Hp Hb. unfold valid_half in Hv.
  open_world w.
  unfold dispatch, Decode_DataPortion, prepend_LogicalBit, Decode_LogicalBit, assemble.
  fold (bit_of t).
  run_data; reached.
Qed.

(** The same half-bit when the host has no edge left: the decoder stays
    in the [wait] of [Decode_LogicalBit]. *)
Lemma data_bit_starved t w :
  Header_Completed (self w) <> 0 ->
  valid_half t = true ->
  0 <= Bitcnt (self w) <= 64 ->
  pending w = [] ->
  exists w', dispatch t w = Suspended w'.
Proof.
  intros Hh Hv Hk Hp. unfold valid_half in Hv.
  open_world w.
  unfold dispatch, Decode_DataPortion, prepend_LogicalBit, Decode_LogicalBit.
  run_data; destruct tc; cbn; eexists; reflexivity.
Qed.

(** A valid half-bit at position 65: no edge is waited for, the code
    word is complete and the counter goes back to 0. *)
Lemma data_last_turn t w :
  Header_Completed (self w) <> 0 ->
  valid_half t = true ->
  Bitcnt (self w) = 65 ->
  exists w', dispatch t w = Ok tt w'
    /\ Bitcnt (self w') = 0
    /\ Header_Completed (self w') = 0
    /\ (BitString (self w'), KeyLoq (self w')) =
         assemble 65 (bit_of t) (BitString (self w)) (KeyLoq (self w))
    /\ n (self w') = samplenum (self w) + 8
    /\ emitted w' =
         emitted w ++
         [mkAnnotation (prevN (self w)) (samplenum (self w) + 8) LOGICAL_BIT
            (String.append "Bit " (bit_of t));
          mkAnnotation (ssBlock (start_block (self w))) (samplenum (self w) + 8)
            CODE_WORD "RPT";
          mkAnnotation (prevN (self w)) (samplenum (self w) + 8) FIXED_DATA
            (if String.eqb (bit_of t) "0" then "No" else "Yes")]
    /\ pending w' = pending w
    /\ samplenum (self w') = samplenum (self w)
    /\ busy_data w w'.
Proof.
  intros Hh Hv Hk. unfold valid_half in Hv.
  open_world w.
  unfold dispatch, Decode_DataPortion, prepend_LogicalBit, Decode_LogicalBit, assemble,
    start_block.
  fold (bit_of t).
  run_data.
  all: eexists; split; [reflexivity|]; cbn; rewrite <- ?app_assoc; repeat split; reflexivity.
Qed.

(** ** Runs of the loop over a timed capture *)

Lemma follows_length rate ws : forall prev es,
  follows rate prev ws es = true -> length es = length ws.
Proof.
  induction ws as [|win ws IH]; intros prev [|e es] H; cbn in *; try discriminate.
  - reflexivity.
  - apply andb_true_iff in H as [_ H]. f_equal. eapply IH, H.
Qed.

Lemma decode_loop_S k w :
  decode_loop (S k) w =
  match decode_body w with
  | Ok _ w' => decode_loop k w'
  | Raise e w' => Raise e w'
  | Suspended w' => Suspended w'
  end.
Proof. reflexivity. Qed.

Lemma decode_trace_S k w :
  decode_trace (S k) w =
  match decode_body w with
  | Ok _ w' => self w' :: decode_trace k w'
  | _ => []
  end.
Proof. reflexivity. Qed.

Lemma looping_arrive rate e rest w : looping rate w -> looping rate (arrive e rest w).
Proof. intros [H1 H2 H3]. split; cbn; assumption. Qed.

Lemma looping_idle rate w w' : idle_data w w' -> looping rate w -> looping rate w'.
Proof.
  intros I [H1 H2 H3]. split; [rewrite (idle_cond _ _ I) | rewrite (idle_rate _ _ I) |];
    assumption.
Qed.

Lemma looping_busy rate w w' : busy_data w w' -> looping rate w -> looping rate w'.
Proof.
  intros I [H1 H2 H3]. split; [rewrite (busy_cond _ _ I) | rewrite (busy_rate _ _ I) |];
    assumption.
Qed.

(** [k] pulses that [Decode_Preable] takes for TE pulses. *)
Lemma run_pulses rate (win : Q -> bool) ws :
  (forall t, win t = true -> in_short_te t || in_std_te t = true) ->
  forall k w,
  looping rate w ->
  Header_Completed (self w) = 0 ->
  follows rate (prevN (self w)) (repeat win k ++ ws) (pending w) = true ->
  exists w',
    (forall m, decode_loop (k + m) w = decode_loop m w')
    /\ looping rate w'
    /\ Header_Completed (self w') = 0
    /\ TEcnt (self w') = TEcnt (self w) + Z.of_nat k
    /\ Bitcnt (self w') = Bitcnt (self w)
    /\ BitString (self w') = BitString (self w)
    /\ KeyLoq (self w') = KeyLoq (self w)
    /\ follows rate (prevN (self w')) ws (pending w') = true.
Proof.
  intros Hwin. induction k as [|k IH]; intros w L Hh Hf.
  - exists w. rewrite Z.add_0_r. split; [reflexivity|]. auto 10.
  - cbn [repeat app] in Hf. destruct (pending w) as [|e es] eqn:Hp; [discriminate|].
    cbn [follows] in Hf. apply andb_true_iff in Hf as [Ht Hf].
    destruct (preamble_te_turn _ (arrive e es w) Hh (Hwin _ Ht)) as (w1 & Hrun & Hte & Hh1 & I).
    destruct (IH w1) as (w' & Hloop & L' & Hh' & Hte' & Hb' & Hs' & Hk' & Hf').
    + eapply looping_idle; [exact I|]. apply looping_arrive, L.
    + exact Hh1.
    + rewrite (idle_prevN _ _ I), (idle_pending _ _ I). exact Hf.
    + exists w'. split.
      { intros m. cbn [Nat.add]. rewrite decode_loop_S, (decode_body_edge rate w e es L Hp), Hrun.
        apply Hloop. }
      rewrite Hte', Hb', Hs', Hk', Hte, (idle_Bitcnt _ _ I), (idle_BitString _ _ I),
        (idle_KeyLoq _ _ I).
      cbn. split; [exact L'|]. split; [exact Hh'|]. split; [lia|]. auto.
Qed.

(** The header gap after a complete preamble. *)
Lemma run_header rate ws w :
  looping rate w ->
  Header_Completed (self w) = 0 ->
  TEcnt (self w) = PREAMBLE_TE_Count_Std \/ TEcnt (self w) = PREAMBLE_TE_Count_Short ->
  follows rate (prevN (self w)) (in_header :: ws) (pending w) = true ->
  exists w',
    (forall m, decode_loop (1 + m) w = decode_loop m w')
    /\ looping rate w'
    /\ Header_Completed (self w') = 1
    /\ TEcnt (self w') = 0
    /\ Bitcnt (self w') = Bitcnt (self w)
    /\ BitString (self w') = BitString (self w)
    /\ KeyLoq (self w') = KeyLoq (self w)
    /\ follows rate (prevN (self w')) ws (pending w') = true.
Proof.
  intros L Hh Hte Hf.
  destruct (pending w) as [|e es] eqn:Hp; [discriminate|].
  cbn [follows] in Hf. apply andb_true_iff in Hf as [Ht Hf].
  destruct (preamble_header_turn _ (arrive e es w) Hh Ht Hte) as (w1 & Hrun & Hte1 & _ & Hh1 & I).
  exists w1. split.
  { intros m. cbn [Nat.add]. now rewrite decode_loop_S, (decode_body_edge rate w e es L Hp), Hrun. }
  rewrite (idle_prevN _ _ I), (idle_pending _ _ I), (idle_Bitcnt _ _ I),
    (idle_BitString _ _ I), (idle_KeyLoq _ _ I).
  split; [eapply looping_idle; [exact I|]; apply looping_arrive, L|].
  auto 10.
Qed.

Lemma sound_arrive rate e rest w : sound rate w -> sound rate (arrive e rest w).
Proof. intros [L B K]. split; [apply looping_arrive, L | exact B | exact K]. Qed.

(** The bits [bs] of a data portion, none of them the last. *)
Lemma run_bits rate ws : forall bs w,
  looping rate w ->
  Header_Completed (self w) = 1 ->
  is_binary (BitString (self w)) = true ->
  0 <= Bitcnt (self w) ->
  Bitcnt (self w) + Z.of_nat (length bs) <= 65 ->
  follows rate (prevN (self w)) (bit_windows bs ++ ws) (pending w) = true ->
  exists w' ds,
    (forall m, decode_loop (length bs + m) w = decode_loop m w')
    /\ (forall m, decode_trace (length bs + m) w = ds ++ decode_trace m w')
    /\ map Bitcnt ds =
         map (fun i => Bitcnt (self w) + Z.of_nat i) (seq 1 (length bs))
    /\ map Header_Completed ds = repeat 1 (length bs)
    /\ looping rate w'
    /\ Header_Completed (self w') = 1
    /\ is_binary (BitString (self w')) = true
    /\ Bitcnt (self w') = Bitcnt (self w) + Z.of_nat (length bs)
    /\ (BitString (self w'), KeyLoq (self w')) =
         assemble_all (Bitcnt (self w)) bs (BitString (self w)) (KeyLoq (self w))
    /\ follows rate (prevN (self w')) ws (pending w') = true.
Proof.
  induction bs as [|b bs IH]; intros w L Hh Hb Hk0 Hk Hf.
  - exists w, []. cbn [length Nat.add seq map repeat app assemble_all].
    rewrite Z.add_0_r. auto 12.
  - cbn [bit_windows app] in Hf. cbn [length] in Hk.
    destruct (pending w) as [|e1 [|e2 es]] eqn:Hp; try discriminate.
    { cbn in Hf. now rewrite andb_false_r in Hf. }
    cbn [follows] in Hf. apply andb_true_iff in Hf as [Ht Hf].
    apply andb_true_iff in Hf as [_ Hf].
    set (t := span rate (prevN (self w)) (edge_sample e1)) in *.
    assert (Hv : valid_half t = true).
    { unfold valid_half. destruct b; cbn in Ht; rewrite Ht; [reflexivity | apply orb_true_r]. }
    assert (Hbit : bit_of t = bit_char b).
    { unfold bit_of. destruct b; cbn in Ht; [now rewrite Ht|].
      now rewrite (bit0_not_std t Ht). }
    pose proof (data_bit_turn t (arrive e1 (e2 :: es) w) e2 es) as Hturn.
    cbn [self arrive set_n set_samplenum Header_Completed Bitcnt trig_cond pending
         BitString KeyLoq] in Hturn.
    destruct Hturn as (w1 & Hrun & Hk1 & Hh1 & Has & Hp1 & Hs1 & I);
      [lia | exact Hv | lia | apply L | reflexivity | exact Hb |].
    assert (Hb1 : is_binary (BitString (self w1)) = true).
    { change (BitString (self w1)) with (fst (BitString (self w1), KeyLoq (self w1))).
      rewrite Has. apply assemble_binary, Hb. }
    destruct (IH w1) as (w' & ds & Hloop & Htr & Hcnt & Hhc & L' & Hh' & Hb' & Hk' & Has' & Hf').
    + eapply looping_busy; [exact I|]. apply looping_arrive, L.
    + congruence.
    + exact Hb1.
    + lia.
    + lia.
    + rewrite (busy_prevN _ _ I), Hs1, Hp1. exact Hf.
    + exists w', (self w1 :: ds).
      assert (Hbody : decode_body w = Ok tt w1).
      { now rewrite (decode_body_edge rate w e1 (e2 :: es) L Hp). }
      split. { intros m. change (length (b :: bs) + m)%nat with (S (length bs + m)).
               rewrite decode_loop_S, Hbody. apply Hloop. }
      split. { intros m. change (length (b :: bs) + m)%nat with (S (length bs + m)).
               rewrite decode_trace_S, Hbody. cbn [app]. f_equal. apply Htr. }
      split. { cbn [length seq map]. rewrite Hcnt, Hk1, <- (seq_shift (length bs) 1), map_map.
               apply (f_equal2 cons); [lia|]. apply map_ext. intros i. lia. }
      split. { cbn [length map repeat]. rewrite Hhc. f_equal. congruence. }
      split; [exact L'|]. split; [exact Hh'|]. split; [exact Hb'|].
      split. { rewrite Hk', Hk1. cbn [length]. lia. }
      split; [|exact Hf'].
      rewrite Has'. cbn [assemble_all]. rewrite <- Hbit, <- Has, Hk1. reflexivity.
Qed.

(** The last bit of a code word. *)
Lemma run_last rate ws last w :
  looping rate w ->
  Header_Completed (self w) = 1 ->
  Bitcnt (self w) = 65 ->
  follows rate (prevN (self w)) (half_window last :: ws) (pending w) = true ->
  exists w',
    (forall m, decode_loop (1 + m) w = decode_loop m w')
    /\ (forall m, decode_trace (1 + m) w = self w' :: decode_trace m w')
    /\ looping rate w'
    /\ Header_Completed (self w') = 0
    /\ Bitcnt (self w') = 0
    /\ TEcnt (self w') = TEcnt (self w)
    /\ (BitString (self w'), KeyLoq (self w')) =
         assemble 65 (bit_char last) (BitString (self w)) (KeyLoq (self w))
    /\ (exists out ss,
          emitted w' =
          out ++ [mkAnnotation ss (n (self w')) CODE_WORD "RPT";
                  mkAnnotation (prevN (self w)) (n (self w')) FIXED_DATA
                    (if last then "Yes" else "No")])
    /\ follows rate (prevN (self w')) ws (pending w') = true.
Proof.
  intros L Hh Hk Hf.
  destruct (pending w) as [|e es] eqn:Hp; [discriminate|].
  cbn [follows] in Hf. apply andb_true_iff in Hf as [Ht Hf].
  set (t := span rate (prevN (self w)) (edge_sample e)) in *.
  assert (Hv : valid_half t = true).
  { unfold valid_half. destruct last; cbn in Ht; rewrite Ht; [reflexivity | apply orb_true_r]. }
  assert (Hbit : bit_of t = bit_char last).
  { unfold bit_of. destruct last; cbn in Ht; [now rewrite Ht|].
    now rewrite (bit0_not_std t Ht). }
  pose proof (data_last_turn t (arrive e es w)) as Hturn.
  cbn [self arrive set_n set_samplenum Header_Completed Bitcnt trig_cond pending
       BitString KeyLoq emitted prevN samplenum] in Hturn.
  destruct Hturn as (w1 & Hrun & Hk1 & Hh1 & Has & Hn1 & Hout & Hp1 & Hs1 & I);
    [lia | exact Hv | exact Hk |].
  assert (Hbody : decode_body w = Ok tt w1).
  { now rewrite (decode_body_edge rate w e es L Hp). }
  exists w1.
  split. { intros m. cbn [Nat.add]. now rewrite decode_loop_S, Hbody. }
  split. { intros m. cbn [Nat.add]. now rewrite decode_trace_S, Hbody. }
  split. { eapply looping_busy; [exact I|]. apply looping_arrive, L. }
  split; [exact Hh1|]. split; [exact Hk1|].
  split. { apply (busy_TEcnt _ _ I). }
  split. { rewrite Has, Hbit. reflexivity. }
  split.
  { eexists (emitted w ++ [_]), _. rewrite Hout, Hn1, Hbit, <- app_assoc. cbn [app].
    destruct last; reflexivity. }
  rewrite (busy_prevN _ _ I), Hs1, Hp1. exact Hf.
Qed.

(** With no edge left the loop stays in its [wait]. *)
Lemma loop_dry rate w m :
  looping rate w -> pending w = [] -> decode_loop (S m) w = Suspended w.
Proof. intros L Hp. now rewrite decode_loop_S, (decode_body_dry rate w L Hp). Qed.

Lemma follows_nil rate prev es : follows rate prev [] es = true -> es = [].
Proof. destruct es; [reflexivity | discriminate]. Qed.

(** [decode] up to the loop, when the capture begins with a rising
    edge. *)
Lemma decode_anchored rate e0 es :
  edge_rising e0 = true ->
  decode (session (Some rate) (e0 :: es)) = decode_loop (S (length es)) (anchored rate e0 es).
Proof. intros H. unfold decode, decode_anchor. cbn. rewrite H. reflexivity. Qed.

Lemma looping_anchored rate e0 es : rate <> 0 -> looping rate (anchored rate e0 es).
Proof. intros H. split; [reflexivity | reflexivity | exact H]. Qed.

(** ** Durations and the doubles of the code *)

(** A duration measured at a rate in range that is not on a bound of a
    window misses it by more than 2^-45 of the bound, over a hundred
    times what separates a double from the number it stands for. *)
Lemma outside_by_a_margin (rate prev s : Z) (c : Q) :
  in_rate_range rate = true ->
  In c window_bounds ->
  ((span rate prev s < c -> span rate prev s <= c * (1 - (1 # 2 ^ 45)))
   /\ (c < span rate prev s -> c * (1 + (1 # 2 ^ 45)) <= span rate prev s))%Q.
Proof.
  intros Hr H. unfold in_rate_range in Hr.
  apply andb_true_iff in Hr as [H0 H1]. apply Z.ltb_lt in H0. apply Z.leb_le in H1.
  destruct rate as [|p|p]; try lia.
  change (span (Z.pos p) prev s) with ((s - prev) * 1 # 1 * p)%Q.
  generalize (s - prev). intros a.
  unfold window_bounds, PREAMBLE_TE_Timing_Short, TE_Timing, item in H.
  cbn [app nth In] in H.
  repeat (destruct H as [H|H];
          [ match type of H with
            | ?lit = _ => let v := eval vm_compute in lit in change lit with v in H
            end;
            subst c;
            repeat match goal with
              | |- context [Qmult ?x ?y] =>
                  let v := eval vm_compute in (Qmult x y) in change (Qmult x y) with v
              end;
            unfold Qlt, Qle; cbn [Qnum Qden]; rewrite ?Pos2Z.inj_mul; split; lia |]).
  contradiction.
Qed.

(** ** Preamble and header acquisition *)

(** C8: while the decoder looks for preamble and header, an edge whose
    duration lies in none of the three windows (short preamble, standard
    TE, header) sets [TEcnt] back to 0 and clears [Block_Init], whatever
    [TEcnt] was.  The rate and the sample numbers are in the range where
    the double of the code is outside a window when the exact duration
    is. *)
Theorem unrecognized_duration_resets_TEcnt (rate : Z) (w : World) (e : Edge)
    (rest : list Edge) :
  looping rate w ->
  pending w = e :: rest ->
  measured_exactly rate (prevN (self w)) (edge_sample e) = true ->
  Header_Completed (self w) = 0 ->
  in_short_te (span rate (prevN (self w)) (edge_sample e)) = false ->
  in_std_te (span rate (prevN (self w)) (edge_sample e)) = false ->
  in_header (span rate (prevN (self w)) (edge_sample e)) = false ->
  exists w', decode_body w = Ok tt w'
    /\ TEcnt (self w') = 0
    /\ Block_Init (self w') = 0
    /\ Header_Completed (self w') = 0.
Proof.
  intros L Hp _ Hh H1 H2 H3.
  rewrite (decode_body_edge rate w e rest L Hp).
  destruct (preamble_reset_turn _ (arrive e rest w) Hh H1 H2 (or_introl H3))
    as (w' & Hrun & Hte & Hbi & Hhc & _).
  eauto.
Qed.

(** After 7 pulses of a preamble, an edge 1200 samples later. *)
Lemma unrecognized_duration_resets_TEcnt_witness :
  let w := after_turns 7 scenario_edges in
  let w1 := {| self := self w; pending := [mkEdge 4100 true]; emitted := emitted w |} in
  TEcnt (self w1) = 7 /\ Block_Init (self w1) = 1
  /\ exists w', decode_body w1 = Ok tt w'
       /\ TEcnt (self w') = 0
       /\ Block_Init (self w') = 0
       /\ Header_Completed (self w') = 0.
Proof.
  intros w w1. split; [vm_compute; reflexivity|]. split; [vm_compute; reflexivity|].
  apply (unrecognized_duration_resets_TEcnt 1000000 w1 (mkEdge 4100 true) []).
  - split; [vm_compute; reflexivity | vm_compute; reflexivity | discriminate].
  - reflexivity.
  - vm_compute; reflexivity.
  - vm_compute; reflexivity.
  - vm_compute; reflexivity.
  - vm_compute; reflexivity.
  - vm_compute; reflexivity.
Defined.

(** C4 as stated fails: after the 23 pulses of a standard preamble a
    24th pulse of TE length is no header, yet [TEcnt] is 24 afterwards
    and [Block_Init] is still set. *)
Lemma extra_pulse_does_not_reset :
  let w := after_turns 23 long_preamble_edges in
  TEcnt (self w) = PREAMBLE_TE_Count_Std
  /\ Header_Completed (self w) = 0
  /\ (exists e rest,
        pending w = e :: rest
        /\ in_header (span 1000000 (prevN (self w)) (edge_sample e)) = false
        /\ exists w', decode_body w = Ok tt w'
             /\ TEcnt (self w') = 24
             /\ Block_Init (self w') = 1)
  /\ exists w', decode (session (Some 1000000) long_preamble_edges) = Suspended w'
       /\ TEcnt (self w') = 24
       /\ Block_Init (self w') = 1.
Proof.
  intros w. split; [vm_compute; reflexivity|]. split; [vm_compute; reflexivity|]. split.
  - eexists _, _. split; [vm_compute; reflexivity|]. split; [vm_compute; reflexivity|].
    eexists. split; [vm_compute; reflexivity|]. split; vm_compute; reflexivity.
  - eexists. split; [vm_compute; reflexivity|]. split; vm_compute; reflexivity.
Qed.

(** What a TE pulse does to [Block_Init]: [Start_Block] is called when
    the pulse is counted below its threshold, and sets a flag that was
    clear; nothing else touches it. *)
Lemma preamble_te_turn_block t w :
  Header_Completed (self w) = 0 ->
  in_short_te t || in_std_te t = true ->
  exists w', dispatch t w = Ok tt w'
    /\ Block_Init (self w') =
         (if (in_short_te t && (TEcnt (self w) + 1 <? PREAMBLE_TE_Count_Short))
             || (in_std_te t && (TEcnt (self w) + 1 <? PREAMBLE_TE_Count_Std))
          then (if Block_Init (self w) =? 0 then 1 else Block_Init (self w))
          else Block_Init (self w)).
Proof.
  intros Hh Ht. open_world w.
  unfold dispatch, Decode_Preable, PREAMBLE_TE_Count_Std, PREAMBLE_TE_Count_Short in *.
  run; (eexists; split; [reflexivity|]; cbn; try reflexivity; try lia).
Qed.

(** C4, as the code has it: with the preamble threshold reached, an edge
    that is no header gap resets [TEcnt] and [Block_Init] when its
    duration is outside the two TE windows as well.  Inside a TE window
    there is no reset: [TEcnt] keeps its incremented value and
    [Block_Init] is not cleared; a flag that is set stays as it is, and
    a flag that is clear is set by [Start_Block] when the pulse is a
    short one counted as the 24th.  Either way the header is not
    complete.  The rate and the sample numbers are in the range where
    the double of the code is outside a window when the exact duration
    is. *)
Theorem awaiting_header_other_edge (rate : Z) (w : World) (e : Edge) (rest : list Edge) :
  looping rate w ->
  pending w = e :: rest ->
  measured_exactly rate (prevN (self w)) (edge_sample e) = true ->
  Header_Completed (self w) = 0 ->
  TEcnt (self w) = PREAMBLE_TE_Count_Std \/ TEcnt (self w) = PREAMBLE_TE_Count_Short ->
  in_header (span rate (prevN (self w)) (edge_sample e)) = false ->
  exists w', decode_body w = Ok tt w'
    /\ Header_Completed (self w') = 0
    /\ (if in_short_te (span rate (prevN (self w)) (edge_sample e))
           || in_std_te (span rate (prevN (self w)) (edge_sample e))
        then TEcnt (self w') = TEcnt (self w) + 1
             /\ Block_Init (self w') =
                  (if in_short_te (span rate (prevN (self w)) (edge_sample e))
                      && (TEcnt (self w) =? PREAMBLE_TE_Count_Std)
                      && (Block_Init (self w) =? 0)
                   then 1 else Block_Init (self w))
        else TEcnt (self w') = 0 /\ Block_Init (self w') = 0).
Proof.
  intros L Hp _ Hh Hc H3.
  rewrite (decode_body_edge rate w e rest L Hp).
  set (t := span rate (prevN (self w)) (edge_sample e)) in *.
  destruct (in_short_te t || in_std_te t) eqn:Hte.
  - destruct (preamble_te_turn t (arrive e rest w) Hh Hte) as (w' & Hrun & Hc' & Hhc & _).
    destruct (preamble_te_turn_block t (arrive e rest w) Hh Hte) as (w2 & Hrun2 & Hbi).
    rewrite Hrun in Hrun2. injection Hrun2 as <-.
    exists w'. split; [exact Hrun|]. split; [exact Hhc|]. split; [exact Hc'|].
    rewrite Hbi. cbn [self arrive set_n set_samplenum TEcnt Block_Init].
    unfold PREAMBLE_TE_Count_Std, PREAMBLE_TE_Count_Short in *.
    destruct Hc as [Hc|Hc]; rewrite Hc; cbn [Z.add Z.ltb Z.eqb Z.compare Pos.compare
      Pos.compare_cont Pos.add Pos.succ Pos.eqb];
      destruct (in_short_te t), (in_std_te t), (Block_Init (self w) =? 0); reflexivity.
  - apply orb_false_iff in Hte as [H1 H2].
    destruct (preamble_reset_turn t (arrive e rest w) Hh H1 H2 (or_introl H3))
      as (w' & Hrun & Hc' & Hbi & Hhc & _).
    eauto.
Qed.

(** After the 23 pulses of the scenario, an edge 1200 samples later
    instead of the header: the counters are reset. *)
Lemma awaiting_header_other_edge_witness :
  let w := after_turns 23 scenario_edges in
  let w1 := {| self := self w; pending := [mkEdge 10500 true]; emitted := emitted w |} in
  TEcnt (self w1) = 23
  /\ exists w', decode_body w1 = Ok tt w'
       /\ Header_Completed (self w') = 0
       /\ TEcnt (self w') = 0 /\ Block_Init (self w') = 0.
Proof.
  intros w w1. split; [vm_compute; reflexivity|].
  apply (awaiting_header_other_edge 1000000 w1 (mkEdge 10500 true) []).
  - split; [vm_compute; reflexivity | vm_compute; reflexivity | discriminate].
  - reflexivity.
  - vm_compute; reflexivity.
  - vm_compute; reflexivity.
  - left. vm_compute; reflexivity.
  - vm_compute; reflexivity.
Defined.

(** C2: a capture that begins with 23 durations in the standard TE
    window and then one in the header window, whatever comes after
    them, makes the decoder count 23 pulses and come to the gap with
    the header flag clear; the turn that takes the gap (it adds 1 to
    [TEcnt], so the gap is tested with the counter at 24) sets
    [Header_Completed] to 1 and [TEcnt] back to 0.  45 durations in the
    short window and a gap do the same, the gap being tested with the
    counter at 46. *)
Theorem preamble_and_header_start_data (rate : Z) (e0 : Edge) (es : list Edge)
    (ws : list (Q -> bool)) :
  rate <> 0 ->
  (follows rate (edge_sample e0) (repeat in_std_te 23 ++ [in_header] ++ ws) es = true ->
   exists w_gap w',
     decode_loop 23 (anchored rate e0 es) = Ok tt w_gap
     /\ TEcnt (self w_gap) + 1 = PREAMBLE_TE_Count_Std + 1
     /\ Header_Completed (self w_gap) = 0
     /\ decode_body w_gap = Ok tt w'
     /\ decode_loop 24 (anchored rate e0 es) = Ok tt w'
     /\ Header_Completed (self w') = 1
     /\ TEcnt (self w') = 0)
  /\ (follows rate (edge_sample e0) (repeat in_short_te 45 ++ [in_header] ++ ws) es = true ->
      exists w_gap w',
        decode_loop 45 (anchored rate e0 es) = Ok tt w_gap
        /\ TEcnt (self w_gap) + 1 = PREAMBLE_TE_Count_Short + 1
        /\ Header_Completed (self w_gap) = 0
        /\ decode_body w_gap = Ok tt w'
        /\ decode_loop 46 (anchored rate e0 es) = Ok tt w'
        /\ Header_Completed (self w') = 1
        /\ TEcnt (self w') = 0).
Proof.
  intros Hr. split; intros Hf.
  - destruct (run_pulses rate in_std_te ([in_header] ++ ws)) with (k := 23%nat)
        (w := anchored rate e0 es)
      as (w1 & Hloop1 & L1 & Hh1 & Hte1 & _ & _ & _ & Hf1);
      [intros t Ht; rewrite Ht; apply orb_true_r | now apply looping_anchored
       | reflexivity | exact Hf |].
    destruct (run_header rate ws w1 L1 Hh1) as (w2 & Hloop2 & L2 & Hh2 & Hte2 & _);
      [left; rewrite Hte1; reflexivity | exact Hf1 |].
    assert (Hbody : decode_body w1 = Ok tt w2).
    { pose proof (Hloop2 0%nat) as H. cbn [Nat.add] in H. rewrite decode_loop_S in H.
      destruct (decode_body w1) as [[] w3| |]; cbn in H; congruence. }
    exists w1, w2.
    split; [apply (Hloop1 0%nat)|]. split; [rewrite Hte1; reflexivity|].
    split; [exact Hh1|]. split; [exact Hbody|].
    split; [|auto].
    change 24%nat with (23 + 1)%nat. rewrite Hloop1. apply (Hloop2 0%nat).
  - destruct (run_pulses rate in_short_te ([in_header] ++ ws)) with (k := 45%nat)
        (w := anchored rate e0 es)
      as (w1 & Hloop1 & L1 & Hh1 & Hte1 & _ & _ & _ & Hf1);
      [intros t Ht; rewrite Ht; reflexivity | now apply looping_anchored
       | reflexivity | exact Hf |].
    destruct (run_header rate ws w1 L1 Hh1) as (w2 & Hloop2 & L2 & Hh2 & Hte2 & _);
      [right; rewrite Hte1; reflexivity | exact Hf1 |].
    assert (Hbody : decode_body w1 = Ok tt w2).
    { pose proof (Hloop2 0%nat) as H. cbn [Nat.add] in H. rewrite decode_loop_S in H.
      destruct (decode_body w1) as [[] w3| |]; cbn in H; congruence. }
    exists w1, w2.
    split; [apply (Hloop1 0%nat)|]. split; [rewrite Hte1; reflexivity|].
    split; [exact Hh1|]. split; [exact Hbody|].
    split; [|auto].
    change 46%nat with (45 + 1)%nat. rewrite Hloop1. apply (Hloop2 0%nat).
Qed.

(** The scenario, a standard preamble and header with the 66 bits of the
    code word after them, and the short preamble of 45 pulses of 200
    samples with its header, both at 1 MHz. *)
Lemma preamble_and_header_start_data_witness :
  (exists w_gap w',
     decode_loop 23 (anchored 1000000 (mkEdge 100 true) (tl scenario_edges)) = Ok tt w_gap
     /\ TEcnt (self w_gap) + 1 = PREAMBLE_TE_Count_Std + 1
     /\ Header_Completed (self w_gap) = 0
     /\ decode_body w_gap = Ok tt w'
     /\ decode_loop 24 (anchored 1000000 (mkEdge 100 true) (tl scenario_edges)) = Ok tt w'
     /\ Header_Completed (self w') = 1
     /\ TEcnt (self w') = 0)
  /\ (exists w_gap w',
        decode_loop 45 (anchored 1000000 (mkEdge 100 true) (tl short_preamble_edges))
          = Ok tt w_gap
        /\ TEcnt (self w_gap) + 1 = PREAMBLE_TE_Count_Short + 1
        /\ Header_Completed (self w_gap) = 0
        /\ decode_body w_gap = Ok tt w'
        /\ decode_loop 46 (anchored 1000000 (mkEdge 100 true) (tl short_preamble_edges))
             = Ok tt w'
        /\ Header_Completed (self w') = 1
        /\ TEcnt (self w') = 0).
Proof.
  split.
  - apply (preamble_and_header_start_data 1000000 (mkEdge 100 true) (tl scenario_edges)
             (code_word_windows (removelast scenario_bits) false)).
    + discriminate.
    + vm_compute. reflexivity.
  - apply (preamble_and_header_start_data 1000000 (mkEdge 100 true)
             (tl short_preamble_edges) []).
    + discriminate.
    + vm_compute. reflexivity.
Defined.

(** ** The data portion *)

(** X7: A half-bit of no valid length at position 64 sets V-Low to
    "Battery High" and emits the two V-Low annotations, and at position
    65 it sets RPT to "No" and emits the two RPT annotations, as a 0 bit
    would; at the button positions 60 to 63 no field of the code word is
    written and nothing but the "Invalid Bit" annotation is emitted.  The
    rate and the sample numbers are in the range where the double of the
    code is outside the two windows when the exact duration is. *)
Theorem invalid_half_at_flag_positions (rate : Z) (w : World) (e : Edge)
    (rest : list Edge) :
  looping rate w ->
  pending w = e :: rest ->
  measured_exactly rate (prevN (self w)) (edge_sample e) = true ->
  Header_Completed (self w) <> 0 ->
  valid_half (span rate (prevN (self w)) (edge_sample e)) = false ->
  60 <= Bitcnt (self w) <= 65 ->
  exists w', decode_body w = Ok tt w'
    /\ KeyLoq (self w') =
         (if Bitcnt (self w) =? 64 then <["V-Low" := "Battery High"%string]> (KeyLoq (self w))
          else if Bitcnt (self w) =? 65 then <["RPT" := "No"%string]> (KeyLoq (self w))
          else KeyLoq (self w))
    /\ emitted w' =
         emitted w ++
         mkAnnotation (prevN (self w)) (edge_sample e) LOGICAL_BIT ">>> Invalid Bit <<< " ::
         (if Bitcnt (self w) =? 64 then
            [mkAnnotation (ssBlock (self w)) (edge_sample e) CODE_WORD "V-Low";
             mkAnnotation (prevN (self w)) (edge_sample e) FIXED_DATA "Battery High"]
          else if Bitcnt (self w) =? 65 then
            [mkAnnotation (ssBlock (self w)) (edge_sample e) CODE_WORD "RPT";
             mkAnnotation (prevN (self w)) (edge_sample e) FIXED_DATA "No"]
          else [])
    /\ Header_Completed (self w') = 0
    /\ Bitcnt (self w') = 0.
Proof.
  intros L Hp _ Hh Hv Hk.
  rewrite (decode_body_edge rate w e rest L Hp).
  pose proof (data_invalid_turn (span rate (prevN (self w)) (edge_sample e))
                (arrive e rest w)) as Hturn.
  cbn [self arrive set_n set_samplenum Header_Completed Bitcnt trig_cond pending
       BitString KeyLoq emitted prevN samplenum n ssBlock] in Hturn.
  destruct Hturn as (w' & Hrun & Hk' & Hh' & _ & _ & Hkw & Hout & _); [exact Hh | exact Hv | lia |].
  exists w'. auto.
Qed.

(** The scenario with the half-bit at position 64 stretched to 620
    samples: V-Low reads "Battery High" although no 0 was sent. *)
Lemma invalid_half_at_flag_positions_witness :
  let w := after_turns (24 + 64) (spoiled_edges 64) in
  let e := mkEdge 90720 false in
  Bitcnt (self w) = 64
  /\ pending w = [e]
  /\ exists w',
       decode_body w = Ok tt w'
       /\ KeyLoq (self w') = <["V-Low" := "Battery High"%string]> (KeyLoq (self w))
       /\ emitted w' =
            emitted w ++
            [mkAnnotation (prevN (self w)) (edge_sample e) LOGICAL_BIT ">>> Invalid Bit <<< ";
             mkAnnotation (ssBlock (self w)) (edge_sample e) CODE_WORD "V-Low";
             mkAnnotation (prevN (self w)) (edge_sample e) FIXED_DATA "Battery High"]
       /\ Header_Completed (self w') = 0
       /\ Bitcnt (self w') = 0.
Proof.
  intros w e.
  assert (Hk : Bitcnt (self w) = 64) by (vm_compute; reflexivity).
  assert (Hp : pending w = [e]) by (vm_compute; reflexivity).
  split; [exact Hk|]. split; [exact Hp|].
  destruct (invalid_half_at_flag_positions 1000000 w e []) as (w' & H).
  - split; [vm_compute; reflexivity | vm_compute; reflexivity | discriminate].
  - exact Hp.
  - vm_compute. reflexivity.
  - vm_compute. discriminate.
  - vm_compute. reflexivity.
  - rewrite Hk. lia.
  - exists w'. rewrite Hk in H. exact H.
Defined.

(** X8: In a data portion of 66 valid bits the counter goes from 0 up
    to 65, one step per turn, with the header flag set all the while;
    the turn that takes the bit at position 65 writes RPT, emits its two
    annotations last, clears the header flag and puts the counter back
    to 0.  The counter is 0 at no turn in between. *)
Theorem Bitcnt_wraps_after_RPT (rate : Z) (w : World) (bs : list bool) (last : bool) :
  looping rate w ->
  Header_Completed (self w) = 1 ->
  Bitcnt (self w) = 0 ->
  is_binary (BitString (self w)) = true ->
  length bs = 65%nat ->
  follows rate (prevN (self w)) (code_word_windows bs last) (pending w) = true ->
  map Bitcnt (decode_trace 66 w) = map Z.of_nat (seq 1 65) ++ [0]
  /\ map Header_Completed (decode_trace 66 w) = repeat 1 65 ++ [0]
  /\ exists w_rpt w',
       decode_loop 65 w = Ok tt w_rpt
       /\ Bitcnt (self w_rpt) = 65
       /\ decode_body w_rpt = Ok tt w'
       /\ decode_loop 66 w = Ok tt w'
       /\ Bitcnt (self w') = 0
       /\ Header_Completed (self w') = 0
       /\ KeyLoq (self w') =
            <["RPT" := if last then "Yes"%string else "No"%string]> (KeyLoq (self w_rpt))
       /\ exists out ss,
            emitted w' =
            out ++ [mkAnnotation ss (n (self w')) CODE_WORD "RPT";
                    mkAnnotation (prevN (self w_rpt)) (n (self w')) FIXED_DATA
                      (if last then "Yes" else "No")].
Proof.
  intros L Hh Hk Hb Hlen Hf. unfold code_word_windows in Hf.
  destruct (run_bits rate [half_window last] bs w L Hh Hb)
    as (w1 & ds & Hloop1 & Htr1 & Hcnt & Hhc & L1 & Hh1 & Hb1 & Hk1 & Has1 & Hf1);
    [lia | lia | exact Hf |].
  rewrite Hlen in *. rewrite Hk in *. cbn [Z.add] in Hk1.
  destruct (run_last rate [] last w1 L1 Hh1 Hk1 Hf1)
    as (w2 & Hloop2 & Htr2 & L2 & Hh2 & Hk2 & _ & Has2 & Hout & _).
  assert (Hbody : decode_body w1 = Ok tt w2).
  { pose proof (Hloop2 0%nat) as H. cbn [Nat.add] in H. rewrite decode_loop_S in H.
    destruct (decode_body w1) as [[] w3| |]; cbn in H; congruence. }
  assert (Htrace : decode_trace 66 w = ds ++ [self w2]).
  { change 66%nat with (65 + 1)%nat. rewrite Htr1.
    change 1%nat with (1 + 0)%nat. rewrite Htr2. reflexivity. }
  rewrite Htrace, !map_app. cbn [map].
  split. { rewrite Hcnt, Hk2. f_equal; try (apply map_ext; intros i; lia). }
  split. { rewrite Hhc, Hh2. reflexivity. }
  exists w1, w2.
  split. { apply (Hloop1 0%nat). }
  split; [exact Hk1|]. split; [exact Hbody|].
  split. { change 66%nat with (65 + 1)%nat. rewrite Hloop1. apply (Hloop2 0%nat). }
  split; [exact Hk2|]. split; [exact Hh2|].
  split; [|exact Hout].
  change (KeyLoq (self w2)) with (snd (BitString (self w2), KeyLoq (self w2))).
  rewrite Has2. destruct last; reflexivity.
Qed.

(** The data portion of the scenario, from the turn after the header. *)
Lemma Bitcnt_wraps_after_RPT_witness :
  let w := after_turns 24 scenario_edges in
  map Bitcnt (decode_trace 66 w) = map Z.of_nat (seq 1 65) ++ [0]
  /\ map Header_Completed (decode_trace 66 w) = repeat 1 65 ++ [0]
  /\ exists w_rpt w',
       decode_loop 65 w = Ok tt w_rpt
       /\ Bitcnt (self w_rpt) = 65
       /\ decode_body w_rpt = Ok tt w'
       /\ decode_loop 66 w = Ok tt w'
       /\ Bitcnt (self w') = 0
       /\ Header_Completed (self w') = 0
       /\ KeyLoq (self w') = <["RPT" := "No"%string]> (KeyLoq (self w_rpt))
       /\ exists out ss,
            emitted w' =
            out ++ [mkAnnotation ss (n (self w')) CODE_WORD "RPT";
                    mkAnnotation (prevN (self w_rpt)) (n (self w')) FIXED_DATA "No"].
Proof.
  intros w.
  apply (Bitcnt_wraps_after_RPT 1000000 w (removelast scenario_bits) false).
  - split; [vm_compute; reflexivity | vm_compute; reflexivity | discriminate].
  - vm_compute; reflexivity.
  - vm_compute; reflexivity.
  - vm_compute; reflexivity.
  - vm_compute; reflexivity.
  - vm_compute; reflexivity.
Defined.

(** ** What the loop keeps *)

Lemma reset_keys (key : string) :
  key ∈ dom (KeyLoq reset) <->
  key ∈ ["Encrypted"; "Serial-Number"; "S3"; "S0"; "S1"; "S2"; "V-Low"; "RPT"]%string.
Proof.
  unfold reset; cbn [KeyLoq]. rewrite !dom_insert_L, dom_empty_L.
  rewrite !elem_of_union, !elem_of_singleton, !elem_of_cons, elem_of_nil.
  rewrite elem_of_empty. tauto.
Qed.

Lemma insert_known_key (key v : string) (m : gmap string string) :
  key ∈ dom (KeyLoq reset) ->
  dom m = dom (KeyLoq reset) ->
  dom (<[key := v]> m) = dom (KeyLoq reset).
Proof.
  intros Hk Hm. rewrite dom_insert_L, Hm.
  apply set_eq. intros x. rewrite elem_of_union, elem_of_singleton.
  split; [intros [->|]; assumption | auto].
Qed.

Lemma assemble_keys k b acc kw :
  dom kw = dom (KeyLoq reset) -> dom (snd (assemble k b acc kw)) = dom (KeyLoq reset).
Proof.
  intros H. unfold assemble.
  repeat match goal with
  | |- context [if ?c then _ else _] =>
      lazymatch c with
      | String.eqb _ _ => fail
      | _ => destruct c
      end
  end; cbn [snd]; try exact H;
    (apply insert_known_key;
      [apply reset_keys; rewrite !elem_of_cons; repeat (first [left; reflexivity | right])
      | exact H]).
Qed.

Lemma steady_arrive e rest w : steady w -> steady (arrive e rest w).
Proof. intros [H1 H2 H3 H4 H5 H6 H7]. split; cbn; assumption. Qed.

Lemma steady_session rate e0 es : steady (anchored rate e0 es).
Proof.
  split; cbn; try lia; try reflexivity; auto.
Qed.

(** A turn of the loop never raises: it returns, with fewer edges left
    and the invariant intact, or it stays in a [wait]. *)
Lemma steady_turn rate w :
  looping rate w -> steady w ->
  match decode_body w with
  | Ok _ w' =>
      looping rate w' /\ steady w' /\ (length (pending w') < length (pending w))%nat
  | Raise _ _ => False
  | Suspended _ => True
  end.
Proof.
  intros L S.
  destruct (pending w) as [|e rest] eqn:Hp.
  { now rewrite (decode_body_dry rate w L Hp). }
  rewrite (decode_body_edge rate w e rest L Hp).
  set (t := span rate (prevN (self w)) (edge_sample e)).
  pose proof (steady_arrive e rest w S) as S0.
  pose proof (looping_arrive rate e rest w L) as L0.
  assert (Hp0 : pending (arrive e rest w) = rest) by reflexivity.
  clearbody t. revert S0 L0 Hp0. generalize (arrive e rest w). clear S L Hp. clear w.
  intros w S L Hp.
  destruct S as [Hk Hh Hte Hidle Hbusy Hb Hkeys].
  destruct Hh as [Hh|Hh].
  - (* preamble and header *)
    destruct (in_short_te t || in_std_te t) eqn:Hte1.
    + destruct (preamble_te_turn t w Hh Hte1) as (w' & -> & Hc & Hh' & I).
      split; [eapply looping_idle; eauto|]. split; [|rewrite (idle_pending _ _ I), Hp; cbn; lia].
      split; rewrite ?(idle_Bitcnt _ _ I), ?(idle_BitString _ _ I), ?(idle_KeyLoq _ _ I);
        auto; try lia.
    + apply orb_false_iff in Hte1 as [H1 H2].
      destruct (in_header t) eqn:H3;
        [destruct (Z.eq_dec (TEcnt (self w)) PREAMBLE_TE_Count_Std) as [E1|N1];
         [|destruct (Z.eq_dec (TEcnt (self w)) PREAMBLE_TE_Count_Short) as [E2|N2]]|].
      * destruct (preamble_header_turn t w Hh H3 (or_introl E1)) as (w' & -> & Hc & _ & Hh' & I).
        split; [eapply looping_idle; eauto|]. split; [|rewrite (idle_pending _ _ I), Hp; cbn; lia].
        split; rewrite ?(idle_Bitcnt _ _ I), ?(idle_BitString _ _ I), ?(idle_KeyLoq _ _ I);
          auto; try lia.
      * destruct (preamble_header_turn t w Hh H3 (or_intror E2)) as (w' & -> & Hc & _ & Hh' & I).
        split; [eapply looping_idle; eauto|]. split; [|rewrite (idle_pending _ _ I), Hp; cbn; lia].
        split; rewrite ?(idle_Bitcnt _ _ I), ?(idle_BitString _ _ I), ?(idle_KeyLoq _ _ I);
          auto; try lia.
      * destruct (preamble_reset_turn t w Hh H1 H2 (or_intror (conj N1 N2)))
          as (w' & -> & Hc & _ & Hh' & I).
        split; [eapply looping_idle; eauto|]. split; [|rewrite (idle_pending _ _ I), Hp; cbn; lia].
        split; rewrite ?(idle_Bitcnt _ _ I), ?(idle_BitString _ _ I), ?(idle_KeyLoq _ _ I);
          auto; try lia.
      * destruct (preamble_reset_turn t w Hh H1 H2 (or_introl H3))
          as (w' & -> & Hc & _ & Hh' & I).
        split; [eapply looping_idle; eauto|]. split; [|rewrite (idle_pending _ _ I), Hp; cbn; lia].
        split; rewrite ?(idle_Bitcnt _ _ I), ?(idle_BitString _ _ I), ?(idle_KeyLoq _ _ I);
          auto; try lia.
  - (* data *)
    assert (Hh0 : Header_Completed (self w) <> 0) by (rewrite Hh; discriminate).
    specialize (Hbusy Hh).
    destruct (valid_half t) eqn:Hv.
    + destruct (Z.eq_dec (Bitcnt (self w)) 65) as [E|N].
      * destruct (data_last_turn t w Hh0 Hv E)
          as (w' & -> & Hk' & Hh' & Has & _ & _ & Hp' & _ & I).
        split; [eapply looping_busy; eauto|]. split; [|rewrite Hp', Hp; cbn; lia].
        assert (HB : BitString (self w') = fst (assemble 65 (bit_of t) (BitString (self w))
                                                  (KeyLoq (self w)))) by now rewrite <- Has.
        assert (HK : KeyLoq (self w') = snd (assemble 65 (bit_of t) (BitString (self w))
                                               (KeyLoq (self w)))) by now rewrite <- Has.
        split; rewrite ?Hk', ?Hh', ?(busy_TEcnt _ _ I); auto; try lia;
          try (rewrite HB; apply assemble_binary, Hb);
          try (rewrite HK; apply assemble_keys, Hkeys).
      * destruct rest as [|e2 rest].
        { destruct (data_bit_starved t w Hh0 Hv) as (w' & ->); [lia | exact Hp | exact I]. }
        destruct (data_bit_turn t w e2 rest Hh0 Hv) as (w' & -> & Hk' & Hh' & Has & Hp' & _ & I);
          [lia | apply L | exact Hp | exact Hb |].
        split; [eapply looping_busy; eauto|]. split; [|rewrite Hp'; cbn; lia].
        assert (HB : BitString (self w') = fst (assemble (Bitcnt (self w)) (bit_of t)
                       (BitString (self w)) (KeyLoq (self w)))) by now rewrite <- Has.
        assert (HK : KeyLoq (self w') = snd (assemble (Bitcnt (self w)) (bit_of t)
                       (BitString (self w)) (KeyLoq (self w)))) by now rewrite <- Has.
        split; rewrite ?Hk', ?Hh', ?(busy_TEcnt _ _ I); auto; try lia;
          try (rewrite HB; apply assemble_binary, Hb);
          try (rewrite HK; apply assemble_keys, Hkeys).
    + destruct (data_invalid_turn t w Hh0 Hv Hk)
        as (w' & -> & Hk' & Hh' & _ & HB & HK & _ & Hp' & I).
      split; [eapply looping_busy; eauto|]. split; [|rewrite Hp', Hp; cbn; lia].
      split; rewrite ?Hk', ?Hh', ?(busy_TEcnt _ _ I); auto; try lia.
      * rewrite HB. destruct (Bitcnt (self w) <=? 59); reflexivity.
      * rewrite HK.
        destruct (Bitcnt (self w) =? 64); [|destruct (Bitcnt (self w) =? 65)]; try exact Hkeys;
          (apply insert_known_key;
            [apply reset_keys; rewrite !elem_of_cons; repeat (first [left; reflexivity | right])
            | exact Hkeys]).
Qed.

Lemma loop_steady rate : forall k w,
  looping rate w -> steady w ->
  match decode_loop k w with
  | Ok _ w' => looping rate w' /\ steady w'
  | Raise _ _ => False
  | Suspended _ => True
  end.
Proof.
  induction k as [|k IH]; intros w L S; [cbn; auto|].
  rewrite decode_loop_S. pose proof (steady_turn rate w L S) as H.
  destruct (decode_body w) as [[] w1|e w1|w1]; [|exact H|exact I].
  destruct H as (L1 & S1 & _). apply IH; assumption.
Qed.

Lemma loop_suspends rate : forall fuel w,
  looping rate w -> steady w -> (length (pending w) < fuel)%nat ->
  exists w', decode_loop fuel w = Suspended w'.
Proof.
  induction fuel as [|fuel IH]; intros w L S Hlen; [lia|].
  rewrite decode_loop_S. pose proof (steady_turn rate w L S) as H.
  destruct (decode_body w) as [[] w1|e w1|w1]; [|contradiction|eauto].
  destruct H as (L1 & S1 & Hlt). apply IH; [assumption | assumption | lia].
Qed.

(** X1: [decode] raises in one case only.  Without a sample rate it raises
    at once: no edge is taken and nothing is emitted.  With a sample rate
    other than 0 it raises nothing, whatever edges with sample numbers
    of 64 bits the capture has (so that every duration is in the range
    of the doubles): it runs until the host has no edge left and stays
    in [wait]. *)
Theorem decode_raises_only_without_samplerate (rate : option Z) (edges : list Edge) :
  rate <> Some 0 ->
  sample_numbers edges = true ->
  match rate with
  | None => decode (session None edges) = Raise NoSamplerate (session None edges)
  | Some r => exists w', decode (session (Some r) edges) = Suspended w'
  end.
Proof.
  intros Hr _. destruct rate as [r|]; [|reflexivity].
  assert (Hr0 : r <> 0) by congruence.
  unfold decode, decode_anchor. cbn.
  destruct (wait_in cond_rising edges) as [[s rest]|]; cbn; [|eauto].
  apply (loop_suspends r (S (length rest)) (anchored r (mkEdge s true) rest)).
  - now apply looping_anchored.
  - apply steady_session.
  - cbn. lia.
Qed.

Lemma decode_raises_only_without_samplerate_witness :
  (exists w', decode (session (Some 1000000) scenario_edges) = Suspended w')
  /\ decode (session None scenario_edges) = Raise NoSamplerate (session None scenario_edges).
Proof.
  split.
  - apply (decode_raises_only_without_samplerate (Some 1000000) scenario_edges);
      [discriminate | vm_compute; reflexivity].
  - apply (decode_raises_only_without_samplerate None scenario_edges);
      [discriminate | vm_compute; reflexivity].
Defined.

(** X2: A sample rate of 0 is the one value that makes the loop raise: the
    first duration is a division by zero. *)
Theorem zero_samplerate_raises (e0 e1 : Edge) (rest : list Edge) :
  edge_rising e0 = true ->
  exists w', decode (session (Some 0) (e0 :: e1 :: rest)) = Raise ZeroDivisionError w'
    /\ emitted w' = [].
Proof.
  intros H. rewrite (decode_anchored 0 e0 (e1 :: rest) H). rewrite decode_loop_S.
  unfold decode_body, duration. cbn. eauto.
Qed.

Lemma zero_samplerate_raises_witness :
  exists w', decode (session (Some 0) scenario_edges) = Raise ZeroDivisionError w'
    /\ emitted w' = [].
Proof.
  apply (zero_samplerate_raises (mkEdge 100 true) (mkEdge 500 false)). reflexivity.
Defined.

(** X3: At the head of every turn the loop reaches from a fresh session, the
    invariant [steady] holds: the bit counter is between 0 and 65 and is
    0 outside a data portion, the pulse counter is 0 inside one, the
    header flag is 0 or 1, the accumulation string is binary and the code
    word has its eight keys. *)
Theorem loop_heads_are_steady (rate : Z) (e0 : Edge) (es : list Edge) (k : nat) (w' : World) :
  rate <> 0 ->
  decode_loop k (anchored rate e0 es) = Ok tt w' ->
  steady w'.
Proof.
  intros Hr Hrun.
  pose proof (loop_steady rate k (anchored rate e0 es) (looping_anchored rate e0 es Hr)
                (steady_session rate e0 es)) as H.
  rewrite Hrun in H. apply H.
Qed.

Lemma loop_heads_are_steady_witness :
  steady (after_turns 40 scenario_edges).
Proof.
  apply (loop_heads_are_steady 1000000 (mkEdge 100 true) (tl scenario_edges) 40).
  - discriminate.
  - vm_compute. reflexivity.
Defined.

(** ** The value of the fields *)

Lemma int2_acc_app s1 s2 : forall a,
  Py.int2_acc a (String.append s1 s2) =
  match Py.int2_acc a s1 with
  | Some v => Py.int2_acc v s2
  | None => None
  end.
Proof.
  induction s1 as [|c s1 IH]; intros a; [reflexivity|].
  change (String.append (String c s1) s2) with (String c (String.append s1 s2)).
  cbn [Py.int2_acc]. destruct (Py.bit_of_ascii c); [apply IH | reflexivity].
Qed.

Lemma append_assoc s1 s2 s3 :
  String.append (String.append s1 s2) s3 = String.append s1 (String.append s2 s3).
Proof.
  induction s1 as [|c s1 IH]; [reflexivity|].
  change (String.append (String c s1) s2) with (String c (String.append s1 s2)).
  change (String.append (String c (String.append s1 s2)) s3)
    with (String c (String.append (String.append s1 s2) s3)).
  change (String.append (String c s1) (String.append s2 s3))
    with (String c (String.append s1 (String.append s2 s3))).
  now rewrite IH.
Qed.

Lemma accumulate_app bs : forall acc,
  accumulate bs acc = String.append (accumulate bs "") acc.
Proof.
  induction bs as [|b bs IH]; intros acc; [reflexivity|].
  cbn [accumulate]. rewrite IH, (IH (String.append (bit_char b) "")), append_assoc.
  f_equal. destruct b; reflexivity.
Qed.

Lemma int2_acc_bit b a :
  Py.int2_acc a (bit_char b) = Some (2 * a + (if b then 1 else 0))%N.
Proof. destruct b; reflexivity. Qed.

(** The first bit received ends as the last character and counts
    least. *)
Lemma int2_acc_accumulate bs : forall a,
  Py.int2_acc a (accumulate bs "") = Some (a * 2 ^ N.of_nat (length bs) + bits_value bs)%N.
Proof.
  induction bs as [|b bs IH]; intros a.
  - cbn. f_equal. lia.
  - cbn [accumulate]. rewrite accumulate_app, int2_acc_app, IH.
    replace (String.append (bit_char b) "") with (bit_char b) by (destruct b; reflexivity).
    rewrite int2_acc_bit. f_equal.
    cbn [length bits_value]. rewrite Nat2N.inj_succ, N.pow_succ_r'. lia.
Qed.

Lemma accumulate_nonempty bs acc :
  bs <> [] -> accumulate bs acc <> EmptyString.
Proof.
  destruct bs as [|b bs]; [congruence|]. intros _. cbn [accumulate].
  rewrite accumulate_app. destruct (accumulate bs ""); destruct b; discriminate.
Qed.

Lemma int2_acc_shift s : forall a,
  Py.int2_acc a s =
  option_map (fun w => a * 2 ^ N.of_nat (String.length s) + w)%N (Py.int2_acc 0 s).
Proof.
  induction s as [|c s IH]; intros a.
  - cbn. f_equal. lia.
  - cbn [Py.int2_acc String.length]. destruct (Py.bit_of_ascii c) as [d|]; [|reflexivity].
    rewrite (IH (2 * a + d)%N), (IH (2 * 0 + d)%N).
    destruct (Py.int2_acc 0 s) as [w|]; [|reflexivity]. cbn [option_map]. f_equal.
    rewrite Nat2N.inj_succ, N.pow_succ_r'. lia.
Qed.

Lemma int2_accumulate bs acc v :
  bs <> [] ->
  Py.int2_acc 0 acc = Some v ->
  Py.int2 (accumulate bs acc) =
  Some (bits_value bs * 2 ^ N.of_nat (String.length acc) + v)%N.
Proof.
  intros Hne Hacc.
  pose proof (accumulate_nonempty bs acc Hne) as Hs.
  unfold Py.int2. destruct (accumulate bs acc) eqn:E; [congruence|]. rewrite <- E.
  rewrite accumulate_app, int2_acc_app, int2_acc_accumulate, int2_acc_shift, Hacc.
  cbn [option_map]. f_equal; lia.
Qed.

(** Bits decoded inside a field only go in front of the accumulation. *)
Lemma assemble_all_inside lo hi : forall bs k acc kw,
  (lo = 0 /\ hi = 31) \/ (lo = 32 /\ hi = 59) ->
  lo <= k -> k + Z.of_nat (length bs) <= hi ->
  assemble_all k bs acc kw = (accumulate bs acc, kw).
Proof.
  induction bs as [|b bs IH]; intros k acc kw Hr Hlo Hhi; [reflexivity|].
  cbn [assemble_all accumulate length] in *.
  assert (Hstep : assemble k (bit_char b) acc kw = (String.append (bit_char b) acc, kw)).
  { unfold assemble.
    destruct Hr as [[-> ->]|[-> ->]];
      repeat match goal with
      | |- context [Z.ltb ?x ?y] => destruct (Z.ltb_spec x y); try lia
      | |- context [Z.eqb ?x ?y] => destruct (Z.eqb_spec x y); try lia
      end; reflexivity. }
  rewrite Hstep. apply IH; [exact Hr | lia | lia].
Qed.

Lemma assemble_all_app bs1 : forall bs2 k acc kw,
  assemble_all k (bs1 ++ bs2) acc kw =
  assemble_all (k + Z.of_nat (length bs1)) bs2
    (fst (assemble_all k bs1 acc kw)) (snd (assemble_all k bs1 acc kw)).
Proof.
  induction bs1 as [|b bs1 IH]; intros bs2 k acc kw.
  - cbn. now rewrite Z.add_0_r.
  - cbn [app assemble_all length]. destruct (assemble k (bit_char b) acc kw) as [acc' kw'].
    rewrite IH. f_equal. lia.
Qed.

Lemma accumulate_snoc bs b acc :
  accumulate (bs ++ [b]) acc = String.append (bit_char b) (accumulate bs acc).
Proof.
  revert acc. induction bs as [|b0 bs IH]; intros acc; [reflexivity|].
  cbn [app accumulate]. apply IH.
Qed.

Lemma split_last {A} (l : list A) k :
  length l = S k -> exists front x, l = front ++ [x] /\ length front = k.
Proof.
  intros H. destruct (exists_last (l := l)) as (front & x & ->).
  { destruct l; [discriminate | congruence]. }
  exists front, x. split; [reflexivity|].
  rewrite length_app in H. cbn in H. lia.
Qed.

Lemma assemble_all_encrypted enc acc kw :
  length enc = 32%nat ->
  assemble_all 0 enc acc kw =
  (""%string, <["Encrypted" := hex_field (accumulate enc acc)]> kw).
Proof.
  intros H. destruct (split_last enc 31 H) as (front & b & -> & Hf).
  rewrite assemble_all_app, (assemble_all_inside 0 31 front 0 acc kw); [|auto|lia|lia].
  rewrite Hf, accumulate_snoc. reflexivity.
Qed.

Lemma assemble_all_serial ser acc kw :
  length ser = 28%nat ->
  assemble_all 32 ser acc kw =
  (""%string, <["Serial-Number" := hex_field (accumulate ser acc)]> kw).
Proof.
  intros H. destruct (split_last ser 27 H) as (front & b & -> & Hf).
  rewrite assemble_all_app, (assemble_all_inside 32 59 front 32 acc kw); [|auto|lia|lia].
  rewrite Hf, accumulate_snoc. reflexivity.
Qed.

Lemma hex_field_accumulate bs acc v :
  bs <> [] ->
  Py.int2_acc 0 acc = Some v ->
  hex_field (accumulate bs acc) =
  String.append "0x"
    (Py.format_0X (bits_value bs * 2 ^ N.of_nat (String.length acc) + v) 7).
Proof. intros Hne Hv. unfold hex_field. now rewrite (int2_accumulate bs acc v Hne Hv). Qed.

(** The code word assembled from 66 bits, on top of an accumulation
    string [acc] left from before. *)
Lemma assemble_all_code_word enc ser s3 s0 s1 s2 v r acc kw :
  length enc = 32%nat -> length ser = 28%nat ->
  assemble_all 0 (enc ++ ser ++ [s3; s0; s1; s2; v; r]) acc kw =
  (""%string,
   <["RPT" := if r then "Yes"%string else "No"%string]>
     (<["V-Low" := if v then "Battery Low"%string else "Battery High"%string]>
        (<["S2" := bit_char s2]> (<["S1" := bit_char s1]> (<["S0" := bit_char s0]>
           (<["S3" := bit_char s3]>
              (<["Serial-Number" := hex_field (accumulate ser "")]>
                 (<["Encrypted" := hex_field (accumulate enc acc)]> kw)))))))).
Proof.
  intros He Hs.
  rewrite assemble_all_app, (assemble_all_encrypted enc acc kw He), He.
  cbn [fst snd]. rewrite assemble_all_app, assemble_all_serial by exact Hs. rewrite Hs.
  cbn [fst snd]. destruct s3, s0, s1, s2, v, r; reflexivity.
Qed.

(** The decoder on a whole transmission: standard preamble, header and
    66 valid bits. *)
Lemma decode_transmission rate e0 es bs last :
  rate <> 0 ->
  edge_rising e0 = true ->
  length bs = 65%nat ->
  follows rate (edge_sample e0) (transmission_windows bs last) es = true ->
  exists w', decode (session (Some rate) (e0 :: es)) = Suspended w'
    /\ (BitString (self w'), KeyLoq (self w')) =
         assemble_all 0 (bs ++ [last]) "" (KeyLoq reset)
    /\ Bitcnt (self w') = 0
    /\ Header_Completed (self w') = 0.
Proof.
  intros Hr He0 Hlen Hf. rewrite (decode_anchored rate e0 es He0).
  pose proof (follows_length _ _ _ _ Hf) as Hes.
  unfold transmission_windows, code_word_windows in *.
  destruct (run_pulses rate in_std_te ([in_header] ++ bit_windows bs ++ [half_window last]))
    with (k := 23%nat) (w := anchored rate e0 es)
    as (w1 & Hloop1 & L1 & Hh1 & Hte1 & Hk1 & Hb1 & Hkw1 & Hf1);
    [intros t Ht; rewrite Ht; apply orb_true_r | now apply looping_anchored
     | reflexivity | exact Hf |].
  destruct (run_header rate (bit_windows bs ++ [half_window last]) w1 L1 Hh1)
    as (w2 & Hloop2 & L2 & Hh2 & Hte2 & Hk2 & Hb2 & Hkw2 & Hf2);
    [left; rewrite Hte1; reflexivity | exact Hf1 |].
  rewrite Hk1 in Hk2. rewrite Hb1 in Hb2. rewrite Hkw1 in Hkw2.
  change (Bitcnt (self (anchored rate e0 es))) with 0 in Hk2.
  change (BitString (self (anchored rate e0 es))) with ""%string in Hb2.
  change (KeyLoq (self (anchored rate e0 es))) with (KeyLoq reset) in Hkw2.
  destruct (run_bits rate [half_window last] bs w2 L2 Hh2)
    as (w3 & ds & Hloop3 & _ & _ & _ & L3 & Hh3 & _ & Hk3 & Has3 & Hf3);
    [rewrite Hb2; reflexivity | lia | lia | exact Hf2 |].
  rewrite Hk2, Hb2, Hkw2, Hlen in *.
  destruct (run_last rate [] last w3 L3 Hh3 Hk3 Hf3)
    as (w4 & Hloop4 & _ & L4 & Hh4 & Hk4 & Hte4 & Has4 & _ & Hf4).
  apply follows_nil in Hf4.
  exists w4. split.
  { assert (Hfuel : S (length es) = (23 + (1 + (65 + (1 + 66))))%nat).
    { rewrite Hes, !length_app, repeat_length. cbn [length].
      assert (Hbw : forall l, length (bit_windows l) = (2 * length l)%nat).
      { induction l as [|b l IH]; cbn [bit_windows length]; lia. }
      rewrite Hbw, Hlen. reflexivity. }
    rewrite Hfuel, Hloop1, Hloop2, Hloop3, Hloop4. apply (loop_dry rate w4 65 L4 Hf4). }
  split.
  { rewrite Has4, assemble_all_app, <- Has3, Hlen. reflexivity. }
  split; [exact Hk4 | exact Hh4].
Qed.

Lemma KeyLoq_get_code_word (d : Decoder) a b c e f g h i kw :
  KeyLoq d =
    <["RPT" := i]> (<["V-Low" := h]> (<["S2" := g]> (<["S1" := f]> (<["S0" := e]>
      (<["S3" := c]> (<["Serial-Number" := b]> (<["Encrypted" := a]> kw))))))) ->
  KeyLoq_get "Encrypted" d = a /\ KeyLoq_get "Serial-Number" d = b
  /\ KeyLoq_get "S3" d = c /\ KeyLoq_get "S0" d = e /\ KeyLoq_get "S1" d = f
  /\ KeyLoq_get "S2" d = g /\ KeyLoq_get "V-Low" d = h /\ KeyLoq_get "RPT" d = i.
Proof.
  intros H. unfold KeyLoq_get. rewrite H.
  repeat split;
    repeat (rewrite lookup_insert_ne by discriminate); rewrite lookup_insert_eq; reflexivity.
Qed.

(** X4: End to end, for every code word: after a standard preamble and the
    header, 32 + 28 + 6 valid bits fill the eight fields.  The encrypted
    part and the serial number are printed in hexadecimal with the bit
    received first as the least significant one; the buttons come in the
    order S3, S0, S1, S2; a 1 at position 64 reads "Battery Low" and a 1
    at position 65 reads "Yes". *)
Theorem decode_reads_code_word (rate : Z) (e0 : Edge) (es : list Edge)
    (enc ser : list bool) (s3 s0 s1 s2 v r : bool) :
  rate <> 0 ->
  edge_rising e0 = true ->
  length enc = 32%nat ->
  length ser = 28%nat ->
  follows rate (edge_sample e0)
    (transmission_windows (enc ++ ser ++ [s3; s0; s1; s2; v]) r) es = true ->
  exists w', decode (session (Some rate) (e0 :: es)) = Suspended w'
    /\ KeyLoq_get "Encrypted" (self w') =
         String.append "0x" (Py.format_0X (bits_value enc) 7)
    /\ KeyLoq_get "Serial-Number" (self w') =
         String.append "0x" (Py.format_0X (bits_value ser) 7)
    /\ KeyLoq_get "S3" (self w') = bit_char s3
    /\ KeyLoq_get "S0" (self w') = bit_char s0
    /\ KeyLoq_get "S1" (self w') = bit_char s1
    /\ KeyLoq_get "S2" (self w') = bit_char s2
    /\ KeyLoq_get "V-Low" (self w') = (if v then "Battery Low" else "Battery High")%string
    /\ KeyLoq_get "RPT" (self w') = (if r then "Yes" else "No")%string
    /\ BitString (self w') = ""%string
    /\ Bitcnt (self w') = 0
    /\ Header_Completed (self w') = 0.
Proof.
  intros Hr He0 Henc Hser Hf.
  destruct (decode_transmission rate e0 es (enc ++ ser ++ [s3; s0; s1; s2; v]) r Hr He0)
    as (w' & Hrun & Has & Hk & Hh); [|exact Hf|].
  { rewrite !length_app, Henc, Hser. reflexivity. }
  replace ((enc ++ ser ++ [s3; s0; s1; s2; v]) ++ [r])
    with (enc ++ ser ++ [s3; s0; s1; s2; v; r]) in Has
    by (rewrite <- !app_assoc; reflexivity).
  rewrite (assemble_all_code_word enc ser s3 s0 s1 s2 v r "" (KeyLoq reset) Henc Hser) in Has.
  injection Has as Hbs Hkw.
  destruct (KeyLoq_get_code_word _ _ _ _ _ _ _ _ _ _ Hkw)
    as (H1 & H2 & H3 & H4 & H5 & H6 & H7 & H8).
  exists w'. split; [exact Hrun|].
  rewrite H1, H2, H3, H4, H5, H6, H7, H8.
  rewrite (hex_field_accumulate enc "" 0), (hex_field_accumulate ser "" 0);
    try reflexivity; try (intros ->; discriminate).
  cbn [String.length N.of_nat N.pow]. rewrite !N.mul_1_r, !N.add_0_r.
  repeat split; auto.
Qed.

(** The scenario of the specification, at 1 MHz with TE = 400 samples. *)
Lemma decode_reads_code_word_witness :
  exists w', decode (session (Some 1000000) scenario_edges) = Suspended w'
    /\ KeyLoq_get "Encrypted" (self w') = "0x55555555"%string
    /\ KeyLoq_get "Serial-Number" (self w') = "0x0000000"%string
    /\ KeyLoq_get "S3" (self w') = "1"%string
    /\ KeyLoq_get "S0" (self w') = "0"%string
    /\ KeyLoq_get "S1" (self w') = "1"%string
    /\ KeyLoq_get "S2" (self w') = "0"%string
    /\ KeyLoq_get "V-Low" (self w') = "Battery Low"%string
    /\ KeyLoq_get "RPT" (self w') = "No"%string
    /\ BitString (self w') = ""%string
    /\ Bitcnt (self w') = 0
    /\ Header_Completed (self w') = 0.
Proof.
  apply (decode_reads_code_word 1000000 (mkEdge 100 true) (tl scenario_edges)
           (alternating 32 true) (repeat false 28) true false true false true false).
  - discriminate.
  - reflexivity.
  - reflexivity.
  - reflexivity.
  - vm_compute. reflexivity.
Defined.

(** ** After a bad half-bit *)

(** X5: A half-bit of no valid length inside the encrypted part or the
    serial number (positions 0 to 59) ends the data portion: one "Invalid
    Bit" annotation, header flag and bit counter back to 0, the code word
    as it was.  The accumulation string is not left empty: it holds the
    one character "0" that the invalid branch returned.  The rate and
    the sample numbers are in the range where the double of the code is
    outside the two windows when the exact duration is. *)
Theorem invalid_half_in_a_field (rate : Z) (w : World) (e : Edge) (rest : list Edge) :
  looping rate w ->
  pending w = e :: rest ->
  measured_exactly rate (prevN (self w)) (edge_sample e) = true ->
  Header_Completed (self w) <> 0 ->
  valid_half (span rate (prevN (self w)) (edge_sample e)) = false ->
  0 <= Bitcnt (self w) <= 59 ->
  exists w', decode_body w = Ok tt w'
    /\ BitString (self w') = "0"%string
    /\ KeyLoq (self w') = KeyLoq (self w)
    /\ emitted w' =
         emitted w ++
         [mkAnnotation (prevN (self w)) (edge_sample e) LOGICAL_BIT ">>> Invalid Bit <<< "]
    /\ Header_Completed (self w') = 0
    /\ Bitcnt (self w') = 0
    /\ pending w' = rest.
Proof.
  intros L Hp _ Hh Hv Hk.
  rewrite (decode_body_edge rate w e rest L Hp).
  pose proof (data_invalid_turn (span rate (prevN (self w)) (edge_sample e))
                (arrive e rest w)) as Hturn.
  cbn [self arrive set_n set_samplenum Header_Completed Bitcnt trig_cond pending
       BitString KeyLoq emitted prevN samplenum n ssBlock] in Hturn.
  destruct Hturn as (w' & Hrun & Hk' & Hh' & _ & HB & HK & Hout & Hp' & _);
    [exact Hh | exact Hv | lia |].
  exists w'. split; [exact Hrun|].
  destruct (Z.leb_spec (Bitcnt (self w)) 59); [|lia].
  destruct (Z.eqb_spec (Bitcnt (self w)) 64); [lia|].
  destruct (Z.eqb_spec (Bitcnt (self w)) 65); [lia|].
  auto 10.
Qed.

(** The transmission that breaks off at position 10. *)
Lemma invalid_half_in_a_field_witness :
  let w := after_turns 34 aborted_then_scenario_edges in
  Bitcnt (self w) = 10
  /\ BitString (self w) = "0101010101"%string
  /\ exists e rest w',
       pending w = e :: rest
       /\ decode_body w = Ok tt w'
       /\ BitString (self w') = "0"%string
       /\ KeyLoq (self w') = KeyLoq (self w)
       /\ emitted w' =
            emitted w ++
            [mkAnnotation (prevN (self w)) (edge_sample e) LOGICAL_BIT ">>> Invalid Bit <<< "]
       /\ Header_Completed (self w') = 0
       /\ Bitcnt (self w') = 0
       /\ pending w' = rest.
Proof.
  intros w.
  split; [vm_compute; reflexivity|]. split; [vm_compute; reflexivity|].
  destruct (pending w) as [|e rest] eqn:Hp; [vm_compute in Hp; discriminate|].
  assert (He : edge_sample e = 25920).
  { vm_compute in Hp. injection Hp as <- _. reflexivity. }
  destruct (invalid_half_in_a_field 1000000 w e rest) as (w' & H).
  - split; [vm_compute; reflexivity | vm_compute; reflexivity | discriminate].
  - exact Hp.
  - rewrite He. vm_compute. reflexivity.
  - vm_compute. discriminate.
  - rewrite He. vm_compute. reflexivity.
  - vm_compute. split; discriminate.
  - exists e, rest, w'. split; [reflexivity | exact H].
Defined.

(** X6: What the left-over "0" does to the next code word: the 32 bits of
    the encrypted part are accumulated in front of it, and the field
    printed at position 31 is twice the number that was sent. *)
Theorem stale_bit_doubles_encrypted (rate : Z) (w : World) (enc : list bool)
    (ws : list (Q -> bool)) :
  looping rate w ->
  Header_Completed (self w) = 1 ->
  Bitcnt (self w) = 0 ->
  BitString (self w) = "0"%string ->
  length enc = 32%nat ->
  follows rate (prevN (self w)) (bit_windows enc ++ ws) (pending w) = true ->
  exists w', decode_loop 32 w = Ok tt w'
    /\ KeyLoq_get "Encrypted" (self w') =
         String.append "0x" (Py.format_0X (2 * bits_value enc) 7)
    /\ BitString (self w') = ""%string
    /\ Bitcnt (self w') = 32.
Proof.
  intros L Hh Hk Hb Hlen Hf.
  destruct (run_bits rate ws enc w L Hh)
    as (w1 & ds & Hloop & _ & _ & _ & _ & _ & _ & Hk1 & Has & _);
    [rewrite Hb; reflexivity | lia | lia | exact Hf |].
  rewrite Hk, Hb, Hlen in *.
  rewrite (assemble_all_encrypted enc "0" _ Hlen) in Has. injection Has as HB HK.
  exists w1. split; [apply (Hloop 0%nat)|].
  split; [|split; [exact HB | exact Hk1]].
  rewrite (KeyLoq_get_eq _ _ _ _ HK), (hex_field_accumulate enc "0" 0);
    [|intros ->; discriminate | reflexivity].
  cbn [String.length N.of_nat]. do 2 f_equal. lia.
Qed.

(** The scenario sent after the transmission that broke off: 0xAAAAAAAA
    instead of 0x55555555. *)
Lemma stale_bit_doubles_encrypted_witness :
  let w := after_turns 60 aborted_then_scenario_edges in
  exists w', decode_loop 32 w = Ok tt w'
    /\ KeyLoq_get "Encrypted" (self w') = "0xAAAAAAAA"%string
    /\ BitString (self w') = ""%string
    /\ Bitcnt (self w') = 32.
Proof.
  intros w.
  apply (stale_bit_doubles_encrypted 1000000 w (alternating 32 true)
           (bit_windows (repeat false 28 ++ [true; false; true; false; true])
            ++ [half_window false])).
  - split; [vm_compute; reflexivity | vm_compute; reflexivity | discriminate].
  - vm_compute; reflexivity.
  - vm_compute; reflexivity.
  - vm_compute; reflexivity.
  - reflexivity.
  - vm_compute; reflexivity.
Defined.

(** ** More on preamble and header *)

(** X9: The pulse counter does not tell the two kinds of pulses apart: any
    23, or any 45, pulses that are each of short or of standard length,
    followed by the header gap, start the data portion.  Among others a
    preamble of only 23 short pulses is accepted. *)
Theorem mixed_pulses_then_header (rate : Z) (e0 : Edge) (es : list Edge) (k : nat) :
  rate <> 0 ->
  edge_rising e0 = true ->
  k = 23%nat \/ k = 45%nat ->
  follows rate (edge_sample e0)
    (repeat (fun t => in_short_te t || in_std_te t) k ++ [in_header]) es = true ->
  exists w', decode (session (Some rate) (e0 :: es)) = Suspended w'
    /\ Header_Completed (self w') = 1
    /\ TEcnt (self w') = 0
    /\ Bitcnt (self w') = 0.
Proof.
  intros Hr He0 Hk Hf. rewrite (decode_anchored rate e0 es He0).
  pose proof (follows_length _ _ _ _ Hf) as Hlen.
  rewrite length_app, repeat_length in Hlen. cbn [length] in Hlen.
  destruct (run_pulses rate (fun t => in_short_te t || in_std_te t) [in_header])
    with (k := k) (w := anchored rate e0 es)
    as (w1 & Hloop1 & L1 & Hh1 & Hte1 & Hk1 & _ & _ & Hf1);
    [auto | now apply looping_anchored | reflexivity | exact Hf |].
  change (TEcnt (self (anchored rate e0 es))) with 0 in Hte1.
  destruct (run_header rate [] w1 L1 Hh1) as (w2 & Hloop2 & L2 & Hh2 & Hte2 & Hk2 & _ & _ & Hf2);
    [rewrite Hte1; unfold PREAMBLE_TE_Count_Std, PREAMBLE_TE_Count_Short;
     destruct Hk as [->| ->]; [left | right]; reflexivity
    | exact Hf1 |].
  apply follows_nil in Hf2.
  exists w2. split.
  { replace (S (length es)) with (k + (1 + 1))%nat by lia.
    rewrite Hloop1, Hloop2. apply (loop_dry rate w2 0 L2 Hf2). }
  rewrite Hk2, Hk1. auto.
Qed.

(** 23 pulses of 200 samples, a length only the short window accepts,
    and the header gap. *)
Lemma mixed_pulses_then_header_witness :
  exists w',
    decode (session (Some 1000000)
              (mkEdge 100 true :: edges_from 100 false (repeat 200 23 ++ [4000])))
      = Suspended w'
    /\ Header_Completed (self w') = 1
    /\ TEcnt (self w') = 0
    /\ Bitcnt (self w') = 0.
Proof.
  apply (mixed_pulses_then_header 1000000 (mkEdge 100 true)
           (edges_from 100 false (repeat 200 23 ++ [4000])) 23).
  - discriminate.
  - reflexivity.
  - left. reflexivity.
  - vm_compute. reflexivity.
Defined.

(** X10: A gap of header length after any other number of pulses is no
    header: the counter is reset and the decoder goes on looking for a
    preamble. *)
Theorem gap_after_wrong_count_is_rejected (rate : Z) (e0 : Edge) (es : list Edge) (k : nat) :
  rate <> 0 ->
  edge_rising e0 = true ->
  k <> 23%nat -> k <> 45%nat ->
  follows rate (edge_sample e0)
    (repeat (fun t => in_short_te t || in_std_te t) k ++ [in_header]) es = true ->
  exists w', decode (session (Some rate) (e0 :: es)) = Suspended w'
    /\ Header_Completed (self w') = 0
    /\ TEcnt (self w') = 0
    /\ Block_Init (self w') = 0.
Proof.
  intros Hr He0 Hk1 Hk2 Hf. rewrite (decode_anchored rate e0 es He0).
  pose proof (follows_length _ _ _ _ Hf) as Hlen.
  rewrite length_app, repeat_length in Hlen. cbn [length] in Hlen.
  destruct (run_pulses rate (fun t => in_short_te t || in_std_te t) [in_header])
    with (k := k) (w := anchored rate e0 es)
    as (w1 & Hloop1 & L1 & Hh1 & Hte1 & _ & _ & _ & Hf1);
    [auto | now apply looping_anchored | reflexivity | exact Hf |].
  change (TEcnt (self (anchored rate e0 es))) with 0 in Hte1.
  destruct (pending w1) as [|e [|e' rest]] eqn:Hp; try discriminate.
  2:{ cbn in Hf1. now rewrite andb_false_r in Hf1. }
  cbn [follows] in Hf1. rewrite andb_true_r in Hf1.
  destruct (header_not_te _ Hf1) as [H1 H2].
  destruct (preamble_reset_turn _ (arrive e [] w1) Hh1 H1 H2) as (w2 & Hrun & Hte2 & Hbi & Hh2 & I).
  { right. cbn [self arrive set_n set_samplenum TEcnt]. rewrite Hte1.
    unfold PREAMBLE_TE_Count_Std, PREAMBLE_TE_Count_Short. lia. }
  exists w2. split; [|auto].
  replace (S (length es)) with (k + (1 + 1))%nat by lia.
  rewrite Hloop1. cbn [Nat.add]. rewrite decode_loop_S, (decode_body_edge rate w1 e [] L1 Hp), Hrun.
  apply (loop_dry rate w2 0).
  - eapply looping_idle; [exact I|]. apply looping_arrive, L1.
  - rewrite (idle_pending _ _ I). reflexivity.
Qed.

(** 22 pulses and the gap. *)
Lemma gap_after_wrong_count_is_rejected_witness :
  exists w',
    decode (session (Some 1000000)
              (mkEdge 100 true :: edges_from 100 false (repeat 400 22 ++ [4000])))
      = Suspended w'
    /\ Header_Completed (self w') = 0
    /\ TEcnt (self w') = 0
    /\ Block_Init (self w') = 0.
Proof.
  apply (gap_after_wrong_count_is_rejected 1000000 (mkEdge 100 true)
           (edges_from 100 false (repeat 400 22 ++ [4000])) 22).
  - discriminate.
  - reflexivity.
  - discriminate.
  - discriminate.
  - vm_compute. reflexivity.
Defined.

(** ** Edges, annotations and single bits *)

Lemma wait_in_skips skipped e0 es :
  all_falling skipped = true -> edge_rising e0 = true ->
  wait_in cond_rising (skipped ++ e0 :: es) = Some (edge_sample e0, es).
Proof.
  intros Hs He. induction skipped as [|e skipped IH]; cbn in *.
  - now rewrite He.
  - apply andb_true_iff in Hs as [H1 H2]. apply negb_true_iff in H1. rewrite H1. auto.
Qed.

Lemma wait_in_none es :
  all_falling es = true -> wait_in cond_rising es = None.
Proof.
  induction es as [|e es IH]; cbn; [reflexivity|]. intros Hs.
  apply andb_true_iff in Hs as [H1 H2]. apply negb_true_iff in H1. rewrite H1. auto.
Qed.

(** X11: [decode] begins at the first rising edge: falling edges before it
    are passed over and leave no trace.  A capture without a rising
    edge is read to its end with nothing decoded. *)
Theorem decode_starts_at_first_rising (rate : Z) (skipped : list Edge) (e0 : Edge)
    (es : list Edge) :
  all_falling skipped = true ->
  edge_rising e0 = true ->
  decode (session (Some rate) (skipped ++ e0 :: es)) = decode (session (Some rate) (e0 :: es))
  /\ decode (session (Some rate) skipped) =
       Suspended {| self := set_trig_cond cond_rising (metadata rate reset);
                    pending := []; emitted := [] |}.
Proof.
  intros Hs He. split.
  - unfold decode, decode_anchor. cbn. rewrite (wait_in_skips skipped e0 es Hs He).
    rewrite He. reflexivity.
  - unfold decode, decode_anchor. cbn. rewrite (wait_in_none skipped Hs). reflexivity.
Qed.

Lemma decode_starts_at_first_rising_witness :
  decode (session (Some 1000000) ([mkEdge 10 false; mkEdge 40 false] ++ scenario_edges))
  = decode (session (Some 1000000) scenario_edges)
  /\ decode (session (Some 1000000) [mkEdge 10 false; mkEdge 40 false]) =
       Suspended {| self := set_trig_cond cond_rising (metadata 1000000 reset);
                    pending := []; emitted := [] |}.
Proof.
  apply (decode_starts_at_first_rising 1000000 [mkEdge 10 false; mkEdge 40 false]
           (mkEdge 100 true) (tl scenario_edges)); reflexivity.
Defined.

(** X12: Only the first half of a bit is measured.  When it is valid and the
    bit is not the last, the next edge ends the bit whatever its
    distance: the bit goes where [assemble] puts it, the counter
    advances by one, and the following duration is taken from that
    edge. *)
Theorem second_half_is_not_checked (rate : Z) (w : World) (e1 e2 : Edge)
    (rest : list Edge) :
  looping rate w ->
  pending w = e1 :: e2 :: rest ->
  Header_Completed (self w) <> 0 ->
  valid_half (span rate (prevN (self w)) (edge_sample e1)) = true ->
  0 <= Bitcnt (self w) <= 64 ->
  is_binary (BitString (self w)) = true ->
  exists w', decode_body w = Ok tt w'
    /\ (BitString (self w'), KeyLoq (self w')) =
         assemble (Bitcnt (self w)) (bit_of (span rate (prevN (self w)) (edge_sample e1)))
           (BitString (self w)) (KeyLoq (self w))
    /\ Bitcnt (self w') = Bitcnt (self w) + 1
    /\ Header_Completed (self w') = Header_Completed (self w)
    /\ pending w' = rest
    /\ prevN (self w') = edge_sample e2.
Proof.
  intros L Hp Hh Hv Hk Hb.
  rewrite (decode_body_edge rate w e1 (e2 :: rest) L Hp).
  pose proof (data_bit_turn (span rate (prevN (self w)) (edge_sample e1))
                (arrive e1 (e2 :: rest) w) e2 rest) as Hturn.
  cbn [self arrive set_n set_samplenum Header_Completed Bitcnt trig_cond pending
       BitString KeyLoq] in Hturn.
  destruct Hturn as (w' & Hrun & Hk' & Hh' & Has & Hp' & Hs' & I);
    [exact Hh | exact Hv | exact Hk | apply L | reflexivity | exact Hb |].
  exists w'. rewrite (busy_prevN _ _ I). auto 10.
Qed.

(** The first data bit of the scenario with its low half cut down to
    one sample. *)
Lemma second_half_is_not_checked_witness :
  let w0 := after_turns 24 scenario_edges in
  let w := {| self := self w0; pending := [mkEdge 13700 false; mkEdge 13701 true];
              emitted := emitted w0 |} in
  exists w', decode_body w = Ok tt w'
    /\ (BitString (self w'), KeyLoq (self w')) =
         assemble (Bitcnt (self w)) (bit_of (span 1000000 (prevN (self w)) 13700))
           (BitString (self w)) (KeyLoq (self w))
    /\ Bitcnt (self w') = Bitcnt (self w) + 1
    /\ Header_Completed (self w') = Header_Completed (self w)
    /\ pending w' = []
    /\ prevN (self w') = 13701.
Proof.
  intros w0 w.
  apply (second_half_is_not_checked 1000000 w (mkEdge 13700 false) (mkEdge 13701 true) []).
  - split; [vm_compute; reflexivity | vm_compute; reflexivity | discriminate].
  - reflexivity.
  - vm_compute. discriminate.
  - vm_compute. reflexivity.
  - vm_compute. split; discriminate.
  - vm_compute. reflexivity.
Defined.

(** X13: A valid half-bit that is not the last and has no edge after it is
    lost: the decoder stays in the [wait] of [Decode_LogicalBit], with
    no annotation for the bit and the code word, the accumulation and the
    counter as they were. *)
Theorem bit_without_trailing_edge_is_lost (rate : Z) (w : World) (e : Edge) :
  looping rate w ->
  pending w = [e] ->
  Header_Completed (self w) <> 0 ->
  valid_half (span rate (prevN (self w)) (edge_sample e)) = true ->
  0 <= Bitcnt (self w) <= 64 ->
  exists w', decode_body w = Suspended w'
    /\ KeyLoq (self w') = KeyLoq (self w)
    /\ BitString (self w') = BitString (self w)
    /\ Bitcnt (self w') = Bitcnt (self w)
    /\ Header_Completed (self w') = Header_Completed (self w)
    /\ emitted w' = emitted w
    /\ pending w' = [].
Proof.
  intros L Hp Hh Hv Hk.
  rewrite (decode_body_edge rate w e [] L Hp).
  destruct L as [Hc _ _]. revert Hv. generalize (span rate (prevN (self w)) (edge_sample e)).
  intros t Hv. unfold valid_half in Hv.
  open_world w.
  unfold dispatch, Decode_DataPortion, prepend_LogicalBit, Decode_LogicalBit.
  run_data; eexists; (split; [reflexivity|]); cbn; auto 10.
Qed.

(** The scenario cut off after the high half of its first data bit. *)
Lemma bit_without_trailing_edge_is_lost_witness :
  let w0 := after_turns 24 scenario_edges in
  let w := {| self := self w0; pending := [mkEdge 13700 false]; emitted := emitted w0 |} in
  exists w', decode_body w = Suspended w'
    /\ KeyLoq (self w') = KeyLoq (self w)
    /\ BitString (self w') = BitString (self w)
    /\ Bitcnt (self w') = Bitcnt (self w)
    /\ Header_Completed (self w') = Header_Completed (self w)
    /\ emitted w' = emitted w
    /\ pending w' = [].
Proof.
  intros w0 w.
  apply (bit_without_trailing_edge_is_lost 1000000 w (mkEdge 13700 false)).
  - split; [vm_compute; reflexivity | vm_compute; reflexivity | discriminate].
  - reflexivity.
  - vm_compute. discriminate.
  - vm_compute. reflexivity.
  - vm_compute. split; discriminate.
Defined.

(** ** Where the annotations of a turn begin and end *)





(** ** The block a preamble spans *)

Lemma std_pulse_turn t w :
  Header_Completed (self w) = 0 ->
  in_std_te t = true ->
  TEcnt (self w) + 1 < PREAMBLE_TE_Count_Std ->
  exists w', dispatch t w = Ok tt w'
    /\ TEcnt (self w') = TEcnt (self w) + 1
    /\ Header_Completed (self w') = 0
    /\ Block_Init (self w') = (if Block_Init (self w) =? 0 then 1 else Block_Init (self w))
    /\ ssBlock (self w') = (if Block_Init (self w) =? 0 then prevN (self w) else ssBlock (self w))
    /\ emitted w' =
         emitted w ++
         [mkAnnotation (prevN (self w)) (samplenum (self w)) TE (Py.str (TEcnt (self w) + 1))]
    /\ idle_data w w'.
Proof.
  intros Hh Ht Hk. open_world w.
  unfold dispatch, Decode_Preable, PREAMBLE_TE_Count_Std, PREAMBLE_TE_Count_Short in *.
  run; (eexists; split; [reflexivity|]; cbn; repeat split; reflexivity).
Qed.

Lemma std_last_pulse_turn t w :
  Header_Completed (self w) = 0 ->
  in_std_te t = true ->
  TEcnt (self w) + 1 = PREAMBLE_TE_Count_Std ->
  Block_Init (self w) = 1 ->
  exists w', dispatch t w = Ok tt w'
    /\ TEcnt (self w') = PREAMBLE_TE_Count_Std
    /\ Header_Completed (self w') = 0
    /\ emitted w' =
         emitted w ++
         (if in_short_te t
          then [mkAnnotation (prevN (self w)) (samplenum (self w)) TE "23"]
          else []) ++
         [mkAnnotation (ssBlock (self w)) (n (self w)) CODE_WORD "Preamble";
          mkAnnotation (prevN (self w)) (samplenum (self w)) TE "23"]
    /\ idle_data w w'.
Proof.
  intros Hh Ht Hk Hb. open_world w.
  unfold dispatch, Decode_Preable, PREAMBLE_TE_Count_Std, PREAMBLE_TE_Count_Short in *.
  assert (te = 22) by lia. subst te.
  run; (eexists; split; [reflexivity|]; cbn; rewrite <- ?app_assoc; repeat split; reflexivity).
Qed.

Lemma run_std_block rate ws s0 : forall k w,
  looping rate w ->
  Header_Completed (self w) = 0 ->
  block_from s0 w ->
  TEcnt (self w) + Z.of_nat k < PREAMBLE_TE_Count_Std ->
  follows rate (prevN (self w)) (repeat in_std_te k ++ ws) (pending w) = true ->
  exists w',
    (forall m, decode_loop (k + m) w = decode_loop m w')
    /\ looping rate w'
    /\ Header_Completed (self w') = 0
    /\ TEcnt (self w') = TEcnt (self w) + Z.of_nat k
    /\ block_from s0 w'
    /\ ((0 < k)%nat -> Block_Init (self w') = 1)
    /\ pending w' = skipn k (pending w)
    /\ follows rate (prevN (self w')) ws (pending w') = true.
Proof.
  induction k as [|k IH]; intros w L Hh J Hk Hf.
  - exists w. rewrite Z.add_0_r. split; [reflexivity|].
    split; [exact L|]. split; [exact Hh|]. split; [reflexivity|]. split; [exact J|].
    split; [intros H0; inversion H0|]. split; [reflexivity | exact Hf].
  - cbn [repeat app] in Hf. destruct (pending w) as [|e es] eqn:Hp; [discriminate|].
    cbn [follows] in Hf. apply andb_true_iff in Hf as [Ht Hf].
    destruct (std_pulse_turn _ (arrive e es w) Hh Ht)
      as (w1 & Hrun & Hte & Hh1 & Hbi & Hss & _ & I).
    { cbn [self arrive set_n set_samplenum TEcnt]. lia. }
    cbn [self arrive set_n set_samplenum TEcnt Block_Init prevN ssBlock] in Hte, Hbi, Hss.
    assert (J1 : Block_Init (self w1) = 1 /\ ssBlock (self w1) = s0).
    { rewrite Hbi, Hss. destruct J as [[-> <-]|[-> <-]]; auto. }
    destruct (IH w1) as (w' & Hloop & L' & Hh' & Hte' & J' & Hb' & Hp' & Hf').
    + eapply looping_idle; [exact I|]. apply looping_arrive, L.
    + exact Hh1.
    + right. exact J1.
    + lia.
    + rewrite (idle_prevN _ _ I), (idle_pending _ _ I). exact Hf.
    + exists w'. split.
      { intros m. cbn [Nat.add]. rewrite decode_loop_S, (decode_body_edge rate w e es L Hp), Hrun.
        apply Hloop. }
      split; [exact L'|]. split; [exact Hh'|]. split; [lia|]. split; [exact J'|].
      split.
      { intros _. destruct J' as [[H0 _]|[H1 _]]; [|exact H1].
        destruct k; [|apply Hb'; lia].
        cbn in Hloop. specialize (Hloop 0%nat). cbn in Hloop. injection Hloop as <-.
        apply J1. }
      split; [|exact Hf'].
      rewrite Hp', (idle_pending _ _ I). reflexivity.
Qed.

Lemma skipn_head {A} (l : list A) : forall k x rest,
  skipn k l = x :: rest -> nth_error l k = Some x.
Proof.
  induction l as [|a l IH]; intros [|k] x rest H; cbn in *; try discriminate.
  - now injection H as -> _.
  - eapply IH, H.
Qed.

(** X15: The "Preamble" annotation of a standard preamble spans the whole
    block: it goes from the rising edge the capture began with to the
    23rd edge after it, and it is followed by the TE annotation of the
    23rd pulse. *)
Theorem preamble_annotation_spans_block (rate : Z) (e0 : Edge) (es : list Edge)
    (ws : list (Q -> bool)) :
  rate <> 0 ->
  follows rate (edge_sample e0) (repeat in_std_te 23 ++ ws) es = true ->
  exists w' e23 out s22,
    decode_loop 23 (anchored rate e0 es) = Ok tt w'
    /\ nth_error es 22 = Some e23
    /\ emitted w' =
         out ++
         [mkAnnotation (edge_sample e0) (edge_sample e23) CODE_WORD "Preamble";
          mkAnnotation s22 (edge_sample e23) TE "23"]
    /\ TEcnt (self w') = PREAMBLE_TE_Count_Std
    /\ Header_Completed (self w') = 0.
Proof.
  intros Hr Hf.
  change (repeat in_std_te 23) with (repeat in_std_te 22 ++ [in_std_te]) in Hf.
  rewrite <- app_assoc in Hf.
  destruct (run_std_block rate ([in_std_te] ++ ws) (edge_sample e0) 22 (anchored rate e0 es))
    as (w1 & Hloop & L1 & Hh1 & Hte1 & J1 & Hb1 & Hp1 & Hf1);
    [now apply looping_anchored | reflexivity | left; split; reflexivity
     | cbn; unfold PREAMBLE_TE_Count_Std; lia | exact Hf |].
  change (TEcnt (self (anchored rate e0 es))) with 0 in Hte1.
  change (pending (anchored rate e0 es)) with es in Hp1.
  specialize (Hb1 ltac:(lia)).
  destruct J1 as [[H0 _]|[_ Hss]]; [rewrite Hb1 in H0; discriminate|].
  destruct (pending w1) as [|e23 rest] eqn:Hpw; [discriminate|].
  cbn [app follows] in Hf1. apply andb_true_iff in Hf1 as [Ht _].
  destruct (std_last_pulse_turn _ (arrive e23 rest w1) Hh1 Ht)
    as (w2 & Hrun & Hte2 & Hh2 & Hout & I).
  { cbn [self arrive set_n set_samplenum TEcnt]. rewrite Hte1. reflexivity. }
  { exact Hb1. }
  cbn [self arrive set_n set_samplenum prevN ssBlock samplenum n emitted] in Hout.
  exists w2, e23. eexists (emitted w1 ++ _), (prevN (self w1)).
  split.
  { change 23%nat with (22 + 1)%nat. rewrite Hloop. cbn [Nat.add decode_loop].
    unfold bind. now rewrite (decode_body_edge rate w1 e23 rest L1 Hpw), Hrun. }
  split.
  { symmetry in Hp1. apply (skipn_head es 22 e23 rest Hp1). }
  split; [|auto].
  rewrite Hout, Hss, <- app_assoc. reflexivity.
Qed.

Lemma preamble_annotation_spans_block_witness :
  exists w' e23 out s22,
    decode_loop 23 (anchored 1000000 (mkEdge 100 true) (tl scenario_edges)) = Ok tt w'
    /\ nth_error (tl scenario_edges) 22 = Some e23
    /\ emitted w' =
         out ++
         [mkAnnotation 100 (edge_sample e23) CODE_WORD "Preamble";
          mkAnnotation s22 (edge_sample e23) TE "23"]
    /\ TEcnt (self w') = PREAMBLE_TE_Count_Std
    /\ Header_Completed (self w') = 0.
Proof.
  apply (preamble_annotation_spans_block 1000000 (mkEdge 100 true) (tl scenario_edges)
           ([in_header] ++ code_word_windows (removelast scenario_bits) false)).
  - discriminate.
  - vm_compute. reflexivity.
Defined.

(** * The code word, the bit counter and the sample rate *)

(** ** The end-to-end scenario *)

(** C1 as stated fails: on the scenario at 1 MHz, with TE = 400 samples
    and a header of 4 ms, the encrypted part is printed with eight
    digits, "0x55555555", not with seven. *)
Lemma scenario_encrypted_has_8_digits :
  exists w', decode (session (Some 1000000) scenario_edges) = Suspended w'
    /\ KeyLoq_get "Encrypted" (self w') = "0x55555555"%string
    /\ KeyLoq_get "Encrypted" (self w') <> "0x5555555"%string.
Proof.
  eexists. split; [vm_compute; reflexivity|].
  split; [vm_compute; reflexivity | vm_compute; discriminate].
Qed.

(** C1, as the code has it: a capture that begins with a rising edge and
    then has 23 durations in the standard TE window, one in the header
    window and the 66 bits of the scenario (32 bits alternating from 1,
    28 bits 0, the buttons 1, 0, 1, 0, then 1 and 0) is decoded to
    Encrypted "0x55555555", Serial-Number "0x0000000", S3 "1", S0 "0",
    S1 "1", S2 "0", V-Low "Battery Low" and RPT "No". *)
Theorem scenario_code_word (rate : Z) (e0 : Edge) (es : list Edge) :
  rate <> 0 ->
  edge_rising e0 = true ->
  follows rate (edge_sample e0)
    (transmission_windows
       (alternating 32 true ++ repeat false 28 ++ [true; false; true; false] ++ [true])
       false) es = true ->
  exists w', decode (session (Some rate) (e0 :: es)) = Suspended w'
    /\ KeyLoq_get "Encrypted" (self w') = "0x55555555"%string
    /\ KeyLoq_get "Serial-Number" (self w') = "0x0000000"%string
    /\ KeyLoq_get "S3" (self w') = "1"%string
    /\ KeyLoq_get "S0" (self w') = "0"%string
    /\ KeyLoq_get "S1" (self w') = "1"%string
    /\ KeyLoq_get "S2" (self w') = "0"%string
    /\ KeyLoq_get "V-Low" (self w') = "Battery Low"%string
    /\ KeyLoq_get "RPT" (self w') = "No"%string.
Proof.
  intros Hr He0 Hf.
  destruct (decode_transmission rate e0 es
              (alternating 32 true ++ repeat false 28 ++ [true; false; true; false] ++ [true])
              false Hr He0 eq_refl Hf)
    as (w' & Hrun & Has & _).
  exists w'. split; [exact Hrun|].
  assert (Hkw : KeyLoq (self w') = snd (assemble_all 0 scenario_bits "" (KeyLoq reset)))
    by (apply (f_equal snd) in Has; exact Has).
  unfold KeyLoq_get. rewrite Hkw.
  repeat split; vm_compute; reflexivity.
Qed.

Lemma scenario_code_word_witness :
  exists w', decode (session (Some 1000000) scenario_edges) = Suspended w'
    /\ KeyLoq_get "Encrypted" (self w') = "0x55555555"%string
    /\ KeyLoq_get "Serial-Number" (self w') = "0x0000000"%string
    /\ KeyLoq_get "S3" (self w') = "1"%string
    /\ KeyLoq_get "S0" (self w') = "0"%string
    /\ KeyLoq_get "S1" (self w') = "1"%string
    /\ KeyLoq_get "S2" (self w') = "0"%string
    /\ KeyLoq_get "V-Low" (self w') = "Battery Low"%string
    /\ KeyLoq_get "RPT" (self w') = "No"%string.
Proof.
  apply (scenario_code_word 1000000 (mkEdge 100 true) (tl scenario_edges)).
  - discriminate.
  - reflexivity.
  - vm_compute. reflexivity.
Defined.

(** ** An invalid half-bit and the next code word *)

(** C3 on a capture at 1 MHz: a transmission that breaks off at position
    10 with a half-bit of 620 microseconds, a pause, and then the whole
    scenario.  The turn that takes the bad half-bit emits the "Invalid
    Bit" annotation, clears the header flag, puts the bit counter back
    to 0 and writes no field, but it leaves the character "0" in
    [BitString]; the encrypted part of the transmission that follows is
    accumulated in front of it and is printed as "0xAAAAAAAA", twice the
    "0x55555555" that was sent. *)
Theorem invalid_half_spoils_next_code_word :
  let w := after_turns 34 aborted_then_scenario_edges in
  Bitcnt (self w) = 10
  /\ BitString (self w) = "0101010101"%string
  /\ valid_half (span 1000000 (prevN (self w)) 25920) = false
  /\ (exists rest w',
        pending w = mkEdge 25920 false :: rest
        /\ decode_body w = Ok tt w'
        /\ emitted w' =
             emitted w ++ [mkAnnotation 25300 25920 LOGICAL_BIT ">>> Invalid Bit <<< "]
        /\ Header_Completed (self w') = 0
        /\ Bitcnt (self w') = 0
        /\ KeyLoq (self w') = KeyLoq (self w)
        /\ BitString (self w') = "0"%string)
  /\ exists w_end,
       decode (session (Some 1000000) aborted_then_scenario_edges) = Suspended w_end
       /\ KeyLoq_get "Encrypted" (self w_end) = "0xAAAAAAAA"%string
       /\ KeyLoq_get "Serial-Number" (self w_end) = "0x0000000"%string.
Proof.
  intros w. split; [vm_compute; reflexivity|]. split; [vm_compute; reflexivity|].
  split; [vm_compute; reflexivity|]. split.
  - eexists _, _. split; [vm_compute; reflexivity|]. split; [vm_compute; reflexivity|].
    repeat split; vm_compute; reflexivity.
  - eexists. split; [vm_compute; reflexivity|]. split; vm_compute; reflexivity.
Qed.

(** ** The bit counter over a code word *)




(** ** The sample rate *)




(** ** An invalid half-bit at the last two positions *)

(** The invalid branch of [Decode_LogicalBit]: whatever the state, it
    returns the text "0", having set the bit counter to -1. *)
Lemma Decode_LogicalBit_invalid t w :
  valid_half t = false ->
  Decode_LogicalBit t w = Ok "0"%string (invalid_bit w).
Proof.
  intros Hv. apply orb_false_iff in Hv as [H1 H2].
  unfold Decode_LogicalBit, invalid_bit. rewrite H1, H2. reflexivity.
Qed.

(** C10: a half-bit of no valid length makes [Decode_LogicalBit] return
    "0" with the bit counter at -1.  At position 64 the branch of V-Low
    was chosen before the call and takes the "0": V-Low becomes
    "Battery High" and its two annotations are emitted; at position 65
    the same happens to RPT, which becomes "No".  At the positions 60
    to 63 of the buttons the counter is read again after the call, no
    button matches -1, and the code word stays as it was.  The rate and
    the sample numbers are in the range where the double of the code is
    outside the two windows when the exact duration is. *)
Theorem invalid_half_is_read_as_0_by_the_flags (rate : Z) (w : World) (e : Edge)
    (rest : list Edge) :
  looping rate w ->
  pending w = e :: rest ->
  measured_exactly rate (prevN (self w)) (edge_sample e) = true ->
  Header_Completed (self w) <> 0 ->
  valid_half (span rate (prevN (self w)) (edge_sample e)) = false ->
  60 <= Bitcnt (self w) <= 65 ->
  exists w' invalid,
    decode_body w = Ok tt w'
    /\ Decode_LogicalBit (span rate (prevN (self w)) (edge_sample e)) (arrive e rest w)
       = Ok "0"%string (invalid_bit (arrive e rest w))
    /\ Bitcnt (self (invalid_bit (arrive e rest w))) = -1
    /\ invalid =
         mkAnnotation (prevN (self w)) (edge_sample e) LOGICAL_BIT ">>> Invalid Bit <<< "
    /\ (Bitcnt (self w) = 64 ->
        KeyLoq (self w') = <["V-Low" := "Battery High"%string]> (KeyLoq (self w))
        /\ emitted w' =
             emitted w ++
             [invalid;
              mkAnnotation (ssBlock (self w)) (edge_sample e) CODE_WORD "V-Low";
              mkAnnotation (prevN (self w)) (edge_sample e) FIXED_DATA "Battery High"])
    /\ (Bitcnt (self w) = 65 ->
        KeyLoq (self w') = <["RPT" := "No"%string]> (KeyLoq (self w))
        /\ emitted w' =
             emitted w ++
             [invalid;
              mkAnnotation (ssBlock (self w)) (edge_sample e) CODE_WORD "RPT";
              mkAnnotation (prevN (self w)) (edge_sample e) FIXED_DATA "No"])
    /\ (60 <= Bitcnt (self w) <= 63 ->
        KeyLoq (self w') = KeyLoq (self w)
        /\ emitted w' = emitted w ++ [invalid]).
Proof.
  intros L Hp _ Hh Hv Hk.
  rewrite (decode_body_edge rate w e rest L Hp).
  pose proof (data_invalid_turn (span rate (prevN (self w)) (edge_sample e))
                (arrive e rest w)) as Hturn.
  cbn [self arrive set_n set_samplenum Header_Completed Bitcnt trig_cond pending
       BitString KeyLoq emitted prevN samplenum n ssBlock] in Hturn.
  destruct Hturn as (w' & Hrun & _ & _ & _ & _ & Hkw & Hout & _); [exact Hh | exact Hv | lia |].
  exists w', (mkAnnotation (prevN (self w)) (edge_sample e) LOGICAL_BIT ">>> Invalid Bit <<< ").
  split; [exact Hrun|].
  split; [apply Decode_LogicalBit_invalid, Hv|].
  split; [reflexivity|]. split; [reflexivity|].
  rewrite Hkw, Hout.
  split; [|split]; intros Hpos.
  - rewrite Hpos. split; reflexivity.
  - rewrite Hpos. split; reflexivity.
  - destruct (Z.eqb_spec (Bitcnt (self w)) 64); [lia|].
    destruct (Z.eqb_spec (Bitcnt (self w)) 65); [lia|].
    split; reflexivity.
Qed.

(** The scenario with the half-bit at position 65 stretched to 620
    samples: RPT reads "No" whatever was sent. *)
Lemma invalid_half_is_read_as_0_by_the_flags_witness :
  let w := after_turns (24 + 65) (spoiled_edges 65) in
  Bitcnt (self w) = 65
  /\ exists e w',
       pending w = [e]
       /\ decode_body w = Ok tt w'
       /\ KeyLoq (self w') = <["RPT" := "No"%string]> (KeyLoq (self w))
       /\ emitted w' =
            emitted w ++
            [mkAnnotation (prevN (self w)) (edge_sample e) LOGICAL_BIT ">>> Invalid Bit <<< ";
             mkAnnotation (ssBlock (self w)) (edge_sample e) CODE_WORD "RPT";
             mkAnnotation (prevN (self w)) (edge_sample e) FIXED_DATA "No"].
Proof.
  intros w.
  assert (Hk : Bitcnt (self w) = 65) by (vm_compute; reflexivity).
  split; [exact Hk|].
  destruct (pending w) as [|e rest] eqn:Hp; [vm_compute in Hp; discriminate|].
  assert (He : e = mkEdge 91920 false /\ rest = []).
  { vm_compute in Hp. injection Hp as <- <-. split; reflexivity. }
  destruct He as [He ->].
  destruct (invalid_half_is_read_as_0_by_the_flags 1000000 w e [])
    as (w' & inv & Hrun & _ & _ & -> & _ & H65 & _).
  - split; [vm_compute; reflexivity | vm_compute; reflexivity | discriminate].
  - exact Hp.
  - rewrite He. vm_compute. reflexivity.
  - vm_compute. discriminate.
  - rewrite He. vm_compute. reflexivity.
  - rewrite Hk. lia.
  - exists e, w'. split; [reflexivity|]. split; [exact Hrun|]. apply H65, Hk.
Defined.
